(** * cmake-win-on-linux.py: the decision logic of the Windows installer
      build script of LAMMPS, embedded in Rocq.

    The script is a linear Python program.  Its pure parts (option
    parsing, validation, names and command lines) become functions; its
    effects (printing, the file system, external commands) become events
    of a trace, with the outside world an oracle.  A [string] holds the
    bytes of a text; where the script looks at characters, in its three
    patterns of revisions and in the pattern of the version line, the
    bytes are read as UTF-8 and the classes [\d] and [\w] follow the
    character database of the interpreter.  The Python primitives the
    script relies on ([%] formatting, [print], [os.path.join], [re]) are
    embedded first. *)

From Stdlib Require Import String Ascii List ZArith Lia Bool Arith.
From Stdlib Require Import DecimalString.
Import ListNotations.
Open Scope string_scope.

(** ** Python primitives *)

Module Py.

(** The double quote and the line feed, which a Rocq string literal does
    not spell conveniently. *)
Definition dq : string := String (ascii_of_nat 34) EmptyString.
Definition nl : string := String (ascii_of_nat 10) EmptyString.
Definition LF : ascii := ascii_of_nat 10.

(** Values that reach [%s], [%d] and [print]. *)
Inductive pyval :=
| PStr (s : string)
| PInt (z : Z)
| PBool (b : bool)
| PNone.

Definition str_of_Z (z : Z) : string := NilZero.string_of_int (Z.to_int z).

(** [str(v)] *)
Definition str (v : pyval) : string :=
  match v with
  | PStr s => s
  | PInt z => str_of_Z z
  | PBool true => "True"
  | PBool false => "False"
  | PNone => "None"
  end.

Definition opt_str (o : option string) : pyval :=
  match o with Some s => PStr s | None => PNone end.

(** [fmt % args] for the two directives the script uses, [%s] and [%d].
    The script only formats integers with [%d], where it agrees with
    [%s]. *)
Fixpoint pyformat (fmt : string) (args : list pyval) : string :=
  match fmt with
  | EmptyString => EmptyString
  | String c rest =>
      if Ascii.eqb c "%" then
        match rest with
        | String d rest' =>
            if (Ascii.eqb d "s" || Ascii.eqb d "d")%bool then
              match args with
              | a :: args' => str a ++ pyformat rest' args'
              | [] => pyformat rest' []
              end
            else String c (pyformat rest args)
        | EmptyString => String c EmptyString
        end
      else String c (pyformat rest args)
  end.

(** The text [print(a, b, ...)] writes: the arguments separated by one
    space and followed by a line feed. *)
Definition print_text (args : list string) : string :=
  String.concat " " args ++ nl.

(** *** Strings as character lists *)

Definition chars (s : string) : list ascii := list_ascii_of_string s.

Fixpoint last_char (s : string) : option ascii :=
  match s with
  | EmptyString => None
  | String c EmptyString => Some c
  | String _ rest => last_char rest
  end.

Definition startswith (p s : string) : bool := String.prefix p s.

Definition endswith_char (c : ascii) (s : string) : bool :=
  match last_char s with
  | Some d => Ascii.eqb c d
  | None => false
  end.

(** [posixpath.join(a, *p)] *)
Definition join2 (path b : string) : string :=
  if startswith "/" b then b
  else if (String.eqb path "" || endswith_char "/" path)%bool then path ++ b
  else path ++ "/" ++ b.

Definition path_join (a : string) (p : list string) : string :=
  fold_left join2 p a.

(** [s.split(sep)] for a one-character separator. *)
Fixpoint split_on (sep : ascii) (s : string) : list string :=
  match s with
  | EmptyString => [EmptyString]
  | String c rest =>
      if Ascii.eqb c sep then EmptyString :: split_on sep rest
      else match split_on sep rest with
           | w :: ws => String c w :: ws
           | [] => [String c EmptyString]
           end
  end.

(** [s.strip(c)] for a single character [c]. *)
Fixpoint lstrip_char (c : ascii) (s : string) : string :=
  match s with
  | String d rest => if Ascii.eqb c d then lstrip_char c rest else s
  | EmptyString => EmptyString
  end.

Fixpoint rstrip_char (c : ascii) (s : string) : string :=
  match s with
  | EmptyString => EmptyString
  | String d rest =>
      match rstrip_char c rest with
      | EmptyString => if Ascii.eqb c d then EmptyString else String d EmptyString
      | r => String d r
      end
  end.

Definition strip_char (c : ascii) (s : string) : string :=
  rstrip_char c (lstrip_char c s).

(** [posixpath.split] and [posixpath.basename]: everything after the
    last slash is the tail. *)
Fixpoint basename (s : string) : string :=
  match s with
  | EmptyString => EmptyString
  | String c rest =>
      if existsb (Ascii.eqb "/") (chars rest) then basename rest
      else if Ascii.eqb c "/" then rest else s
  end.

Definition has_dir (s : string) : bool := existsb (Ascii.eqb "/") (chars s).

End Py.

(** ** The fragment of Python's [re] the script uses

    A backtracking matcher in continuation-passing style, with Python's
    priorities: alternatives left to right, repetition greedy.  In the
    script's patterns repetition is only ever applied to a one-character
    atom ([.*], [\w+], [\d+], [\d{4}], [[a-f0-9]{40}]) and groups are
    never nested, so [Many] repeats a character class and the captured
    groups are collected in the order they close. *)

Module Re.
Import Py.
Local Open Scope list_scope.

(** *** Text

    A Python 3 [str] is a sequence of characters, not of bytes.  The
    interpreter obtains the command-line tokens by decoding their bytes
    as UTF-8, its encoding on Linux unless a legacy locale is asked for,
    an undecodable byte becoming a character of its own (the
    [surrogateescape] handler).  A [string] here holds the bytes;
    [uchars] cuts it into its characters, each represented by the bytes
    that encode it.  The patterns of the script never look inside a
    character beyond ASCII, so Python 2, whose patterns read bytes, is
    the case of a character database that knows nothing beyond ASCII. *)
Definition uchar := string.

Definition byte (c : ascii) : nat := nat_of_ascii c.

Definition between (lo hi : nat) (c : ascii) : bool :=
  (Nat.leb lo (byte c) && Nat.leb (byte c) hi)%bool.

Definition is_ascii (c : ascii) : bool := between 0 127 c.

Definition continuation (c : ascii) : bool := between 128 191 c.

(** The length a lead byte announces; 0 for a byte that starts nothing. *)
Definition lead (c : ascii) : nat :=
  if is_ascii c then 1
  else if between 194 223 c then 2
  else if between 224 239 c then 3
  else if between 240 244 c then 4
  else 0.

(** The second byte of a sequence: the ranges that exclude overlong
    forms, surrogates and code points above U+10FFFF. *)
Definition second (b0 b1 : ascii) : bool :=
  if Nat.eqb (byte b0) 224 then between 160 191 b1
  else if Nat.eqb (byte b0) 237 then between 128 159 b1
  else if Nat.eqb (byte b0) 240 then between 144 191 b1
  else if Nat.eqb (byte b0) 244 then between 128 143 b1
  else continuation b1.

Definition char1 (b0 : ascii) : uchar := String b0 EmptyString.
Definition char2 (b0 b1 : ascii) : uchar := String b0 (char1 b1).
Definition char3 (b0 b1 b2 : ascii) : uchar := String b0 (char2 b1 b2).
Definition char4 (b0 b1 b2 b3 : ascii) : uchar := String b0 (char3 b1 b2 b3).

Fixpoint uchars (s : string) : list uchar :=
  match s with
  | EmptyString => []
  | String b0 r1 =>
      match lead b0, r1 with
      | 2, String b1 r2 =>
          if second b0 b1 then char2 b0 b1 :: uchars r2
          else char1 b0 :: uchars r1
      | 3, String b1 (String b2 r3) =>
          if (second b0 b1 && continuation b2)%bool then char3 b0 b1 b2 :: uchars r3
          else char1 b0 :: uchars r1
      | 4, String b1 (String b2 (String b3 r4)) =>
          if (second b0 b1 && continuation b2 && continuation b3)%bool
          then char4 b0 b1 b2 b3 :: uchars r4
          else char1 b0 :: uchars r1
      | _, _ => char1 b0 :: uchars r1
      end
  end.

(** The bytes a sequence of characters stands for. *)
Definition text (cs : list uchar) : string := String.concat "" cs.

(** A character that decoding accepts: an ASCII byte or a complete
    multi-byte sequence, as opposed to an escaped byte. *)
Definition multibyte (ch : uchar) : bool :=
  match ch with
  | String b0 (String b1 EmptyString) =>
      (Nat.eqb (lead b0) 2 && second b0 b1)%bool
  | String b0 (String b1 (String b2 EmptyString)) =>
      (Nat.eqb (lead b0) 3 && second b0 b1 && continuation b2)%bool
  | String b0 (String b1 (String b2 (String b3 EmptyString))) =>
      (Nat.eqb (lead b0) 4 && second b0 b1 && continuation b2 && continuation b3)%bool
  | _ => false
  end.

Definition decodable (ch : uchar) : bool :=
  match ch with
  | String b EmptyString => is_ascii b
  | _ => multibyte ch
  end.

(** [bytes.decode('UTF-8')] succeeds when no byte has to be escaped. *)
Definition utf8 (s : string) : bool := forallb decodable (uchars s).

(** What [uchars] produces: single bytes and complete sequences. *)
Definition unit_char (ch : uchar) : Prop :=
  (exists b, ch = char1 b) \/ multibyte ch = true.

(** A text starts clean when its first byte cannot continue a sequence:
    there a text can be cut without cutting a character. *)
Definition clean (s : string) : Prop :=
  match s with
  | EmptyString => True
  | String c _ => continuation c = false
  end.

(** *** Character classes

    The ASCII part of a class is fixed; beyond ASCII [\d] and [\w]
    follow the character database of the interpreter, which the caller
    supplies ([db]): the decimal digits and the alphanumerics of Unicode
    under Python 3, nothing under Python 2.  An undecodable byte is in
    neither class. *)
Definition in_range (lo hi c : ascii) : bool :=
  (Nat.leb (nat_of_ascii lo) (nat_of_ascii c)
   && Nat.leb (nat_of_ascii c) (nat_of_ascii hi))%bool.

Definition ascii_digit (c : ascii) : bool := in_range "0" "9" c.
Definition ascii_word (c : ascii) : bool :=
  (in_range "a" "z" c || in_range "A" "Z" c || ascii_digit c || Ascii.eqb c "_")%bool.
Definition ascii_hexlower (c : ascii) : bool :=
  (in_range "a" "f" c || in_range "0" "9" c)%bool.

Definition class (base : ascii -> bool) (db : uchar -> bool) (ch : uchar) : bool :=
  match ch with
  | String b EmptyString => base b
  | _ => (multibyte ch && db ch)%bool
  end.

(** [\d], [\w], [[a-f0-9]] and [.] *)
Definition is_digit (db : uchar -> bool) : uchar -> bool := class ascii_digit db.
Definition is_word (db : uchar -> bool) : uchar -> bool := class ascii_word db.
Definition is_hexlower : uchar -> bool := class ascii_hexlower (fun _ => false).
Definition dot (ch : uchar) : bool := negb (String.eqb ch nl).

Inductive regex :=
| Bol                                   (* ^ *)
| Eol                                   (* $ *)
| Lit (w : string)                      (* literal text *)
| Seq (r1 r2 : regex)
| Alt (r1 r2 : regex)                   (* r1|r2 *)
| Many (p : uchar -> bool) (lo : nat) (hi : option nat)
                                        (* p{lo,hi}, greedy; hi = None is unbounded *)
| Group (r : regex).                    (* ( r ) *)

Fixpoint seqs (rs : list regex) : regex :=
  match rs with
  | [] => Lit ""
  | [r] => r
  | r :: rs' => Seq r (seqs rs')
  end.

Fixpoint alts (r : regex) (rs : list regex) : regex :=
  match rs with
  | [] => r
  | r' :: rs' => Alt r (alts r' rs')
  end.

Definition star (p : uchar -> bool) : regex := Many p 0 None.
Definition plus (p : uchar -> bool) : regex := Many p 1 None.
Definition times (n : nat) (p : uchar -> bool) : regex := Many p n (Some n).

(** A continuation receives the position reached, the text still to be
    read and the groups captured so far. *)
Definition cont := nat -> list uchar -> list string -> option (list string).

Fixpoint strip_prefix (w s : list uchar) : option (list uchar) :=
  match w, s with
  | [], _ => Some s
  | a :: w', b :: s' => if String.eqb a b then strip_prefix w' s' else None
  | _ :: _, [] => None
  end.

Definition can_more (hi : option nat) : bool :=
  match hi with Some 0 => false | _ => true end.

Fixpoint many (p : uchar -> bool) (lo : nat) (hi : option nat)
         (pos : nat) (s : list uchar) (caps : list string) (k : cont)
  : option (list string) :=
  let stop := if Nat.eqb lo 0 then k pos s caps else None in
  match s with
  | c :: s' =>
      if (p c && can_more hi)%bool then
        match many p (pred lo) (option_map pred hi) (S pos) s' caps k with
        | Some r => Some r
        | None => stop
        end
      else stop
  | [] => stop
  end.

Fixpoint exec (r : regex) (pos : nat) (s : list uchar) (caps : list string)
         (k : cont) : option (list string) :=
  match r with
  | Bol => if Nat.eqb pos 0 then k pos s caps else None
  | Eol =>
      match s with
      | [] => k pos s caps
      | [c] => if String.eqb c nl then k pos s caps else None
      | _ => None
      end
  | Lit w =>
      match strip_prefix (uchars w) s with
      | Some s' => k (pos + List.length (uchars w)) s' caps
      | None => None
      end
  | Seq r1 r2 =>
      exec r1 pos s caps (fun pos' s' caps' => exec r2 pos' s' caps' k)
  | Alt r1 r2 =>
      match exec r1 pos s caps k with
      | Some res => Some res
      | None => exec r2 pos s caps k
      end
  | Many p lo hi => many p lo hi pos s caps k
  | Group r1 =>
      exec r1 pos s caps
        (fun pos' s' caps' =>
           k pos' s' (caps' ++ [text (firstn (pos' - pos) s)]))
  end.

(** [pattern.match(s)]: a match anchored at the start of [s]; the result
    is the tuple [.groups()] of the match, if there is one. *)
Definition re_match (r : regex) (s : string) : option (list string) :=
  exec r 0 (uchars s) [] (fun _ _ caps => Some caps).

Definition matches (r : regex) (s : string) : bool :=
  match re_match r s with Some _ => true | None => false end.

(** What a pattern denotes: [den r pos u v] says that [r], started at
    position [pos], can consume [u] when [v] follows. *)
Definition within (hi : option nat) (n : nat) : Prop :=
  match hi with Some h => n <= h | None => True end.

Fixpoint den (r : regex) (pos : nat) (u v : list uchar) : Prop :=
  match r with
  | Bol => u = [] /\ pos = 0
  | Eol => u = [] /\ (v = [] \/ v = [nl])
  | Lit w => u = uchars w
  | Seq r1 r2 =>
      exists u1 u2, u = u1 ++ u2 /\ den r1 pos u1 (u2 ++ v)
                    /\ den r2 (pos + List.length u1) u2 v
  | Alt r1 r2 => den r1 pos u v \/ den r2 pos u v
  | Many p lo hi => lo <= List.length u /\ within hi (List.length u) /\ forallb p u = true
  | Group r1 => den r1 pos u v
  end.

(** A continuation whose success does not depend on the groups. *)
Definition blind (k : cont) : Prop :=
  forall pos s c1 c2, k pos s c1 <> None -> k pos s c2 <> None.

End Re.

(** ** The script *)
Module Script.
Import Py Re.

(** *** Effects

    What the script does to the outside world is recorded as a trace of
    events, in the order they happen. *)
Inductive event :=
| Stdout (text : string)               (* print *)
| Rmtree (path : string)               (* shutil.rmtree(path, True) *)
| Mkdir (path : string)                (* os.mkdir *)
| Chdir (path : string)                (* os.chdir *)
| Shell (cmd : string)                 (* subprocess.check_output(cmd, shell=True) *)
| Geturl (url file : string)           (* urlretrieve *)
| Gunzip (src dst : string)            (* gzip.open + shutil.copyfileobj *)
| Remove (path : string)               (* os.remove *)
| WriteFile (path text : string)
| ReadLine (path : string)             (* open + readline, decoding included *)
| Move (src dst : string)              (* shutil.move *)
| Copy (src dst : string)              (* shutil.copy *)
| Copytree (src dst : string).         (* shutil.copytree *)

(** How a run, or a part of it, ends: it returns, the interpreter exits
    through [sys.exit], or an exception nobody catches ends it. *)
Inductive outcome (A : Type) :=
| Ret (a : A)
| Exit (status : Z)
| Uncaught (exn : string).
Arguments Ret {A} a.
Arguments Exit {A} status.
Arguments Uncaught {A} exn.

(** A computation extends the trace so far. *)
Definition M (A : Type) : Type := list event -> list event * outcome A.

Definition ret {A} (a : A) : M A := fun h => (h, Ret a).

Definition bind {A B} (m : M A) (f : A -> M B) : M B :=
  fun h =>
    match m h with
    | (h', Ret a) => f a h'
    | (h', Exit st) => (h', Exit st)
    | (h', Uncaught e) => (h', Uncaught e)
    end.

Declare Scope script_scope.
Delimit Scope script_scope with script.
Notation "x <- m ;; k" := (bind m (fun x => k))
  (at level 100, m at next level, right associativity) : script_scope.
Notation "m ;; k" := (bind m (fun _ => k))
  (at level 100, right associativity) : script_scope.
Local Open Scope script_scope.

Definition emit (e : event) : M unit := fun h => ((h ++ [e])%list, Ret tt).

Definition raise {A} (exn : string) : M A := fun h => (h, Uncaught exn).

(** [sys.exit()] is called without an argument: the interpreter leaves
    with status 0. *)
Definition sys_exit {A} : M A := fun h => (h, Exit 0%Z).

Definition when (b : bool) (m : M unit) : M unit := if b then m else ret tt.

Fixpoint for_each {A} (xs : list A) (f : A -> M unit) : M unit :=
  match xs with
  | [] => ret tt
  | x :: xs' => f x ;; for_each xs' f
  end.

(** The status the process ends with. *)
Definition exit_status {A} (o : outcome A) : Z :=
  match o with
  | Ret _ => 0%Z
  | Exit st => st
  | Uncaught _ => 1%Z
  end.

(** *** The outside world

    Everything the script learns from outside its own text.  What an
    external operation answers may depend on everything done so far, so
    the oracles read the trace.  A character beyond ASCII is given to
    the character database by the bytes that encode it. *)
Record World := {
  argv0 : string;                                  (* sys.argv[0] *)
  homedir : string;                                (* directory of the script *)
  exename : string;                                (* file name of the script *)
  cpu_count : option Z;                            (* multiprocessing.cpu_count(), if it works *)
  py_int : string -> option Z;                     (* int(token); None is ValueError *)
  fullpath : string -> string;                     (* abspath(expanduser(path)) *)
  fullpath_error : string -> option string;        (* the exception of that call, if it raises *)
  unicode_digit : string -> bool;                  (* is a character beyond ASCII a decimal digit? *)
  unicode_word : string -> bool;                   (* is it alphanumeric? *)
  env_PATH : option string;                        (* os.environ["PATH"] *)
  is_exe : string -> bool;                         (* isfile(f) and access(f, X_OK) *)
  path_exists : list event -> string -> bool;      (* os.path.exists *)
  glob : list event -> string -> list string;      (* glob.glob *)
  shell : list event -> string -> bool * string;   (* exit status zero?, combined output *)
  raises : list event -> event -> option string;   (* exception of a file operation *)
  first_line : list event -> string -> string;     (* readline() of a file just opened, as UTF-8 *)
  localtime : list event -> Z * Z * Z              (* year, month, day *)
}.

(** *** Configuration: the module-level flag variables *)
Record config := {
  bitflag : string;
  numcpus : Z;
  parflag : string;
  pythonflag : bool;
  guiflag : bool;
  thrflag : string;
  revflag : string;
  verbose : bool;
  gitdir : string;
  adminflag : bool;
  msixflag : bool
}.

Section WithWorld.
Variable w : World.

Definition print (args : list string) : M unit := emit (Stdout (print_text args)).

(** An operation on the file system or the network that may raise. *)
Definition fs (e : event) : M unit :=
  fun h =>
    match raises w h e with
    | Some exn => ((h ++ [e])%list, Uncaught exn)
    | None => ((h ++ [e])%list, Ret tt)
    end.

(** lines 11-15 *)
Definition probed_cpus : Z :=
  match cpu_count w with Some n => n | None => 1%Z end.

(** lines 75-84 *)
Definition defaults : config := {|
  bitflag := "64";
  numcpus := probed_cpus;
  parflag := "no";
  pythonflag := false;
  guiflag := false;
  thrflag := "omp";
  revflag := "stable";
  verbose := false;
  gitdir := path_join (homedir w) ["lammps"];
  adminflag := true;
  msixflag := false
|}.

(** lines 86-130 *)
Definition helpmsg_template : string :=
  "
Usage: python %s -b <bits> -j <cpus> -p <mpi> -t <thread> -y <yes|no> -r <rev> -v <yes|no> -g <folder> -a <yes|no>

Flags (all flags are optional, defaults listed below):
  -b : select Windows variant (default value: %s)
    -b 32       : build for 32-bit Windows
    -b 64       : build for 64-bit Windows
  -j : set number of CPUs for parallel make (default value: %d)
    -j <num>    : set to any reasonable number or 1 for serial make
  -p : select message passing parallel build (default value: %s)
    -p mpi      : build an MPI parallel version with MPICH2 v1.4.1p1
    -p ms       : build an MPI parallel version with MS-MPI SDK 10.1
    -p no       : build a serial version using MPI STUBS library
  -t : select thread support (default value: %s)
    -t omp      : build with threads via OpenMP enabled
    -t no       : build with thread support disabled
  -y : select python support (default value: %s)
    -y yes      : build with python included
    -y no       : build without python
  -u : select whether to include the LAMMPS GUI (default value: %s)
    -u yes      : build includes LAMMPS GUI
    -u no       : build does not include LAMMPS GUI
  -r : select LAMMPS source revision to build (default value: %s)
    -r stable   : download and build the latest stable LAMMPS version
    -r release  : download and build the latest patch release LAMMPS version
    -r develop  : download and build the latest development snapshot
    -r maintenance  : download and build the latest maintenance snapshot
    -r patch_<date> : download and build a specific patch release
    -r maintenance_<date> : download and build a specific maintenance branch
    -r <sha256> : download and build a specific snapshot version
  -v : select output verbosity
    -v yes      : print progress messages and output of make commands
    -v no       : print only progress messages
  -g : select folder with git checkout of LAMMPS sources
    -g <folder> : use LAMMPS checkout in <folder>  (default value: %s)
  -a : select admin level installation (default value: yes)
    -a yes      : the created installer requires to be run at admin level
                  and LAMMPS is installed to be accessible by all users
    -a no       : the created installer runs without admin privilege and
                  LAMMPS is installed into the current user's appdata folder
    -a msix     : same as " ++ dq ++ "no" ++ dq ++ " but adjust for creating an MSIX package

Example:
  python %s -r release -t omp -p mpi
".

Definition helpmsg : string :=
  pyformat helpmsg_template
    [PStr (exename w); PStr (bitflag defaults); PInt (numcpus defaults);
     PStr (parflag defaults); PStr (thrflag defaults);
     PBool (pythonflag defaults); PBool (guiflag defaults);
     PStr (revflag defaults); PStr (gitdir defaults); PStr (exename w)].

(** lines 19-22; [not str] holds of [None] and of the empty string *)
Definition error {A} (msg : option string) : M A :=
  match msg with
  | None => print [helpmsg]
  | Some "" => print [helpmsg]
  | Some s => print [argv0 w; "ERROR:"; s]
  end ;;
  sys_exit.

Definition truthy : list string := ["yes"; "Yes"; "Y"; "y"; "on"; "1"; "True"; "true"].
Definition falsy : list string := ["no"; "No"; "N"; "n"; "off"; "0"; "False"; "false"].

Definition mem (s : string) (l : list string) : bool := existsb (String.eqb s) l.

(** lines 24-30 *)
Definition getbool (arg keyword : string) : M bool :=
  if mem arg truthy then ret true
  else if mem arg falsy then ret false
  else error (Some (pyformat "Unknown %s option: %s" [PStr keyword; PStr arg])).

(** lines 142-169: one flag and its value *)
Definition parse_flag (flag value : string) (c : config) : M config :=
  if flag =? "-b" then
    ret {| bitflag := value; numcpus := numcpus c; parflag := parflag c;
           pythonflag := pythonflag c; guiflag := guiflag c; thrflag := thrflag c;
           revflag := revflag c; verbose := verbose c; gitdir := gitdir c;
           adminflag := adminflag c; msixflag := msixflag c |}
  else if flag =? "-j" then
    match py_int w value with
    | Some n =>
        ret {| bitflag := bitflag c; numcpus := n; parflag := parflag c;
               pythonflag := pythonflag c; guiflag := guiflag c; thrflag := thrflag c;
               revflag := revflag c; verbose := verbose c; gitdir := gitdir c;
               adminflag := adminflag c; msixflag := msixflag c |}
    | None => raise "ValueError"
    end
  else if flag =? "-p" then
    ret {| bitflag := bitflag c; numcpus := numcpus c; parflag := value;
           pythonflag := pythonflag c; guiflag := guiflag c; thrflag := thrflag c;
           revflag := revflag c; verbose := verbose c; gitdir := gitdir c;
           adminflag := adminflag c; msixflag := msixflag c |}
  else if flag =? "-t" then
    ret {| bitflag := bitflag c; numcpus := numcpus c; parflag := parflag c;
           pythonflag := pythonflag c; guiflag := guiflag c; thrflag := value;
           revflag := revflag c; verbose := verbose c; gitdir := gitdir c;
           adminflag := adminflag c; msixflag := msixflag c |}
  else if flag =? "-y" then
    b <- getbool value "python" ;;
    ret {| bitflag := bitflag c; numcpus := numcpus c; parflag := parflag c;
           pythonflag := b; guiflag := guiflag c; thrflag := thrflag c;
           revflag := revflag c; verbose := verbose c; gitdir := gitdir c;
           adminflag := adminflag c; msixflag := msixflag c |}
  else if flag =? "-u" then
    b <- getbool value "gui" ;;
    ret {| bitflag := bitflag c; numcpus := numcpus c; parflag := parflag c;
           pythonflag := pythonflag c; guiflag := b; thrflag := thrflag c;
           revflag := revflag c; verbose := verbose c; gitdir := gitdir c;
           adminflag := adminflag c; msixflag := msixflag c |}
  else if flag =? "-r" then
    ret {| bitflag := bitflag c; numcpus := numcpus c; parflag := parflag c;
           pythonflag := pythonflag c; guiflag := guiflag c; thrflag := thrflag c;
           revflag := value; verbose := verbose c; gitdir := gitdir c;
           adminflag := adminflag c; msixflag := msixflag c |}
  else if flag =? "-v" then
    b <- getbool value "verbose" ;;
    ret {| bitflag := bitflag c; numcpus := numcpus c; parflag := parflag c;
           pythonflag := pythonflag c; guiflag := guiflag c; thrflag := thrflag c;
           revflag := revflag c; verbose := b; gitdir := gitdir c;
           adminflag := adminflag c; msixflag := msixflag c |}
  else if flag =? "-a" then
    if mem value ["msix"; "MSIX"] then
      ret {| bitflag := bitflag c; numcpus := numcpus c; parflag := parflag c;
             pythonflag := pythonflag c; guiflag := guiflag c; thrflag := thrflag c;
             revflag := revflag c; verbose := verbose c; gitdir := gitdir c;
             adminflag := false; msixflag := true |}
    else
      b <- getbool value "admin" ;;
      ret {| bitflag := bitflag c; numcpus := numcpus c; parflag := parflag c;
             pythonflag := pythonflag c; guiflag := guiflag c; thrflag := thrflag c;
             revflag := revflag c; verbose := verbose c; gitdir := gitdir c;
             adminflag := b; msixflag := false |}
  else if flag =? "-g" then
    match fullpath_error w value with
    | Some exn => raise exn
    | None =>
        ret {| bitflag := bitflag c; numcpus := numcpus c; parflag := parflag c;
               pythonflag := pythonflag c; guiflag := guiflag c; thrflag := thrflag c;
               revflag := revflag c; verbose := verbose c; gitdir := fullpath w value;
               adminflag := adminflag c; msixflag := msixflag c |}
    end
  else
    print [nl ++ "Unknown flag:"; flag] ;;
    error None.

(** lines 138-170: the loop over [argv[1:]], two tokens at a time *)
Fixpoint parse_args (args : list string) (c : config) : M config :=
  match args with
  | [] => ret c
  | [flag] =>
      print [nl ++ "Missing argument to flag:"; flag] ;;
      error None
  | flag :: value :: rest =>
      c' <- parse_flag flag value c ;;
      parse_args rest c'
  end.

(** lines 173-180 *)
Definition checks (c : config) : M unit :=
  when (negb (bitflag c =? "32") && negb (bitflag c =? "64"))
       (error (Some (pyformat "Unsupported bitness flag %s" [PStr (bitflag c)]))) ;;
  when (negb (parflag c =? "no") && negb (parflag c =? "mpi") && negb (parflag c =? "ms"))
       (error (Some (pyformat "Unsupported parallel flag %s" [PStr (parflag c)]))) ;;
  when (negb (thrflag c =? "no") && negb (thrflag c =? "omp"))
       (error (Some (pyformat "Unsupported threading flag %s" [PStr (thrflag c)]))) ;;
  when (pythonflag c && guiflag c)
       (error (Some "May only include either Python or LAMMPS GUI")).

(** lines 183-185; [\d] is the class of the interpreter *)
Definition digit : uchar -> bool := is_digit (unicode_digit w).

Definition rev1 : regex :=
  seqs [Bol;
        Group (alts (Lit "stable") [Lit "release"; Lit "develop"; Lit "maintenance"]);
        Eol].

Definition rev2 : regex :=
  seqs [Bol;
        Group (alts (Lit "patch") [Lit "stable"]);
        Lit "_";
        plus digit;
        Group (alts (Lit "Jan")
                 [Lit "Feb"; Lit "Mar"; Lit "Apr"; Lit "May"; Lit "Jun"; Lit "Jul";
                  Lit "Aug"; Lit "Sep"; Lit "Oct"; Lit "Nov"; Lit "Dec"]);
        times 4 digit;
        Eol].

Definition rev3 : regex := seqs [Bol; times 40 is_hexlower; Eol].

(** line 186: the revision is accepted when one of the three matches *)
Definition valid_revision (rev : string) : bool :=
  negb (negb (matches rev1 rev) && negb (matches rev2 rev) && negb (matches rev3 rev)).

(** lines 186-187 *)
Definition check_revision (c : config) : M unit :=
  when (negb (valid_revision (revflag c)))
       (error (Some (pyformat "Unsupported revision flag %s" [PStr (revflag c)]))).

(** lines 190-200: the last component of the build folder *)
Definition builddir_name (c : config) : string :=
  let flags := [PStr (bitflag c); PStr (parflag c); PStr (thrflag c); PStr (revflag c)] in
  if adminflag c then pyformat "tmp-%s-%s-%s-%s" flags
  else if pythonflag c then pyformat "tmp-%s-%s-%s-%s-python" flags
  else if guiflag c then pyformat "tmp-%s-%s-%s-%s-gui" flags
  else if msixflag c then pyformat "tmp-%s-%s-%s-%s-msix" flags
  else pyformat "tmp-%s-%s-%s-%s-noadmin" flags.

Definition builddir (c : config) : string :=
  path_join (fullpath w ".") [builddir_name c].

(** The call [fullpath('.')] of these lines, which may raise. *)
Definition locate_builddir : M unit :=
  match fullpath_error w "." with
  | Some exn => raise exn
  | None => ret tt
  end.

(** lines 201-205 *)
Definition make_builddir (c : config) : M unit :=
  emit (Rmtree (builddir c)) ;;
  fun h =>
    match raises w h (Mkdir (builddir c)) with
    | None => ((h ++ [Mkdir (builddir c)])%list, Ret tt)
    | Some _ =>
        error (Some (pyformat "Cannot create temporary build folder: %s"
                       [PStr (builddir c)]))
              (h ++ [Mkdir (builddir c)])%list
    end.

(** lines 53-68 *)
Fixpoint find_exe (paths : list string) (program : string) : option string :=
  match paths with
  | [] => None
  | path :: paths' =>
      let exe_file := path_join (strip_char (ascii_of_nat 34) path) [program] in
      if is_exe w exe_file then Some exe_file else find_exe paths' program
  end.

Definition which (program : string) : M (option string) :=
  if has_dir program then ret (if is_exe w program then Some program else None)
  else match env_PATH w with
       | None => raise "KeyError"
       | Some search => ret (find_exe (split_on ":" search) program)
       end.

(** [bytes.decode('UTF-8')] *)
Definition decode (bytes : string) : M string :=
  if utf8 bytes then ret bytes else raise "UnicodeDecodeError".

(** lines 45-51; [check_output] itself may raise something else than
    [CalledProcessError], which nobody catches *)
Definition system (cmd : string) : M string :=
  fs (Shell cmd) ;;
  fun h =>
    match shell w h cmd with
    | (true, txt) => decode txt h
    | (false, output) =>
        (print [pyformat "Command '%s' returned non-zero exit status" [PStr cmd]] ;;
         msg <- decode output ;;
         error (Some msg)) h
    end.

(** [txt = system(cmd)] followed by [if verbose: print(txt)] *)
Definition system_v (c : config) (cmd : string) : M unit :=
  txt <- system cmd ;;
  when (verbose c) (print [txt]).

(** lines 35-43 *)
Definition getexe (url name : string) : M unit :=
  let gzname := name ++ ".gz" in
  fs (Geturl url gzname) ;;
  fs (Gunzip gzname name) ;;
  fs (Remove gzname).

Record toolchain := {
  cc_cmd : option string;
  cxx_cmd : option string;
  fc_cmd : option string;
  ar_cmd : option string;
  size_cmd : option string;
  nsis_cmd : option string;
  lmp_size : string
}.

(** lines 208-223 *)
Definition probe_toolchain (c : config) : M toolchain :=
  let prefix := if bitflag c =? "32" then "i686-w64-mingw32-" else "x86_64-w64-mingw32-" in
  cc <- which (prefix ++ "gcc") ;;
  cxx <- which (prefix ++ "g++") ;;
  fc <- which (prefix ++ "gfortran") ;;
  ar <- which (prefix ++ "ar") ;;
  size <- which (prefix ++ "size") ;;
  nsis <- which "makensis" ;;
  ret {| cc_cmd := cc; cxx_cmd := cxx; fc_cmd := fc; ar_cmd := ar;
         size_cmd := size; nsis_cmd := nsis;
         lmp_size := if bitflag c =? "32" then "smallsmall" else "smallbig" |}.

(** lines 225-236 *)
Definition print_settings (c : config) (t : toolchain) : M unit :=
  print [pyformat
           "
Settings: building LAMMPS revision %s for %s-bit Windows
Message passing  : %s
Multi-threading  : %s
Home folder      : %s
Source folder    : %s
Build folder     : %s
C compiler       : %s
C++ compiler     : %s
Fortran compiler : %s
Library archiver : %s
"
           [PStr (revflag c); PStr (bitflag c); PStr (parflag c); PStr (thrflag c);
            PStr (homedir w); PStr (gitdir c); PStr (builddir c);
            opt_str (cc_cmd t); opt_str (cxx_cmd t); opt_str (fc_cmd t);
            opt_str (ar_cmd t)]].

Definition exists_ (path : string) : M bool := fun h => (h, Ret (path_exists w h path)).

(** lines 239-250 *)
Definition sync_sources (c : config) : M unit :=
  present <- exists_ (gitdir c) ;;
  when (negb present)
       (system_v c (pyformat "git clone https://github.com/lammps/lammps.git %s"
                      [PStr (gitdir c)])) ;;
  fs (Chdir (gitdir c)) ;;
  system_v c "git fetch origin" ;;
  system_v c (pyformat "git checkout %s" [PStr (revflag c)]) ;;
  when ((revflag c =? "develop") || (revflag c =? "stable")
        || (revflag c =? "release") || (revflag c =? "maintenance"))
       (system_v c "git pull").

(** lines 256-261 *)
Definition download_tools (c : config) : M unit :=
  print ["Downloading third party tools"] ;;
  let url := "http://download.lammps.org/thirdparty" in
  print ["FFMpeg"] ;;
  getexe (pyformat "%s/ffmpeg-win%s.exe.gz" [PStr url; PStr (bitflag c)]) "ffmpeg.exe" ;;
  print ["gzip"] ;;
  getexe (pyformat "%s/gzip.exe.gz" [PStr url]) "gzip.exe".

(** lines 263-271 *)
Definition mpiflag (c : config) : string :=
  if (parflag c =? "mpi") || (parflag c =? "ms") then "on" else "off".

Definition ompflag (c : config) : string :=
  if thrflag c =? "omp" then "on" else "off".

(** lines 274-289 *)
Definition configure_cmd (c : config) : string :=
  let cmd := pyformat "mingw%s-cmake -D CMAKE_BUILD_TYPE=Release" [PStr (bitflag c)] in
  let cmd := cmd ++ pyformat " -D ADD_PKG_CONFIG_PATH=%s/mingw%s-pkgconfig"
                      [PStr (homedir w); PStr (bitflag c)] in
  let cmd := cmd ++ pyformat " -C %s/mingw%s-pkgconfig/addpkg.cmake"
                      [PStr (homedir w); PStr (bitflag c)] in
  let cmd := cmd ++ pyformat " -C %s/cmake/presets/mingw-cross.cmake -S %s/cmake"
                      [PStr (gitdir c); PStr (gitdir c)] in
  let cmd := if bitflag c =? "64"
             then cmd ++ pyformat " -C %s/cmake/presets/kokkos-openmp.cmake" [PStr (gitdir c)]
             else cmd in
  let cmd := cmd ++ pyformat " -DBUILD_SHARED_LIBS=on -DBUILD_MPI=%s -DBUILD_OMP=%s"
                      [PStr (mpiflag c); PStr (ompflag c)] in
  let cmd := if parflag c =? "ms" then cmd ++ " -DUSE_MSMPI=on" else cmd in
  let cmd := if guiflag c
             then cmd ++ " -DBUILD_LAMMPS_GUI=on -DQt5_DIR=/usr/x86_64-w64-mingw32/sys-root/mingw/lib/cmake/Qt5"
             else cmd in
  let cmd := cmd ++ " -DWITH_GZIP=on -DWITH_FFMPEG=on -DLAMMPS_EXCEPTIONS=on" in
  let cmd := cmd ++ " -DINTEL_LRT_MODE=c++11 -DBUILD_LAMMPS_SHELL=on" in
  let cmd := cmd ++ " -DCMAKE_CXX_COMPILER_LAUNCHER=ccache" in
  let cmd := cmd ++ " -DPKG_PLUGIN=yes -DPKG_PLUMED=yes" in
  if pythonflag c then cmd ++ " -DPKG_PYTHON=yes" else cmd.

(** lines 273-299 *)
Definition configure_main (c : config) : M unit :=
  print ["Configuring build with CMake"] ;;
  print ["Running: "; configure_cmd c] ;;
  system_v c (configure_cmd c) ;;
  when (guiflag c)
       (fs (WriteFile "qt.conf" ("[Paths]" ++ nl ++ "Plugins = ../qt5plugins" ++ nl))).

(** lines 301-303: the build of LAMMPS itself *)
Definition compile_main (c : config) : M unit :=
  print ["Compiling"] ;;
  _ <- system "cmake --build . --parallel 8" ;;
  print ["Done"].

(** lines 305-319 *)
Definition demo_plugin_cmd (c : config) : string :=
  let cmd := pyformat "mingw%s-cmake -D CMAKE_BUILD_TYPE=Release" [PStr (bitflag c)] in
  let cmd := cmd ++ pyformat " -S %s/examples/plugins -B plugins" [PStr (gitdir c)] in
  let cmd := cmd ++ pyformat " -DBUILD_SHARED_LIBS=on -DBUILD_MPI=%s -DBUILD_OMP=%s"
                      [PStr (mpiflag c); PStr (ompflag c)] in
  let cmd := if parflag c =? "ms" then cmd ++ " -DUSE_MSMPI=on" else cmd in
  cmd ++ " -DCMAKE_CXX_COMPILER_LAUNCHER=ccache".

Definition build_demo_plugins (c : config) : M unit :=
  print ["Configuring demo plugin build with CMake"] ;;
  print ["Running: "; demo_plugin_cmd c] ;;
  system_v c (demo_plugin_cmd c) ;;
  print ["Compiling"] ;;
  system_v c "cmake --build plugins" ;;
  print ["Done"].

(** lines 323-327 and 345-349 *)
Definition package_plugin_cmd (c : config) (dirs : string) : string :=
  let cmd := pyformat "mingw%s-cmake -D CMAKE_BUILD_TYPE=Release" [PStr (bitflag c)] in
  let cmd := cmd ++ dirs in
  let cmd := cmd ++ pyformat " -DBUILD_SHARED_LIBS=on -DBUILD_MPI=%s -DBUILD_OMP=%s"
                      [PStr (mpiflag c); PStr (ompflag c)] in
  let cmd := cmd ++ pyformat " -DCMAKE_CXX_COMPILER_LAUNCHER=ccache -DLAMMPS_SOURCE_DIR=%s/src"
                      [PStr (gitdir c)] in
  if parflag c =? "ms" then cmd ++ " -DUSE_MSMPI=on" else cmd.

(** lines 337-338 and 359-360 *)
Definition move_up (pattern : string) : M unit :=
  exes <- (fun h => (h, Ret (glob w h pattern))) ;;
  for_each exes (fun exe => fs (Move exe (path_join ".." [basename exe]))).

(** lines 321-361 *)
Definition build_plugin_packages (c : config) : M unit :=
  when (negb (adminflag c) && negb (pythonflag c) && negb (msixflag c) && negb (guiflag c))
    (print ["Configuring pace plugin build with CMake"] ;;
     let cmd := package_plugin_cmd c
                  (pyformat " -S %s/examples/PACKAGES/pace/plugin -B paceplugin"
                     [PStr (gitdir c)]) in
     print ["Running: "; cmd] ;;
     system_v c cmd ;;
     print ["Done"] ;;
     print ["Compiling and building installer"] ;;
     system_v c "cmake --build paceplugin --target package" ;;
     move_up "paceplugin/LAMMPS*plugin*.exe" ;;
     print ["Done"] ;;
     print ["Cloning lammps-plugin package"] ;;
     system_v c (pyformat "git clone -b %s --depth 1 git@github.com:lammps/lammps-plugins.git"
                   [PStr (revflag c)]) ;;
     print ["Configuring LAMMPS plugin collection build with CMake"] ;;
     let cmd := package_plugin_cmd c " -S lammps-plugins -B build_plugins" in
     print ["Running: "; cmd] ;;
     system_v c cmd ;;
     print ["Done"] ;;
     print ["Compiling and building installer"] ;;
     system_v c "cmake --build build_plugins --target package" ;;
     move_up "build_plugins/LAMMPS*plugin*.exe" ;;
     print ["Done"]).

(** lines 363-368 *)
Definition build_manual (c : config) : M unit :=
  print ["Building PDF manual"] ;;
  fs (Chdir (path_join (gitdir c) ["doc"])) ;;
  system_v c "make pdf" ;;
  fs (Move "Manual.pdf" (path_join (builddir c) ["LAMMPS-Manual.pdf"])) ;;
  print ["Done"].

Definition copytree (c : config) (src dst : list string) : M unit :=
  fs (Copytree (path_join (gitdir c) src) (path_join (builddir c) dst)).

Definition copy (c : config) (src : list string) (dst : string) : M unit :=
  fs (Copy (path_join (gitdir c) src) (path_join (builddir c) [dst])).

(** lines 371-390 *)
Definition collect_files (c : config) : M unit :=
  print ["Collect and convert files for the Installer package"] ;;
  fs (Chdir (builddir c)) ;;
  copytree c ["examples"] ["examples"] ;;
  copytree c ["bench"] ["bench"] ;;
  copytree c ["tools"] ["tools"] ;;
  copytree c ["python"; "lammps"] ["python"; "lammps"] ;;
  copytree c ["potentials"] ["potentials"] ;;
  copy c ["README"] "README.txt" ;;
  copy c ["LICENSE"] "LICENSE.txt" ;;
  copy c ["doc"; "src"; "PDF"; "colvars-refman-lammps.pdf"] "Colvars-Manual.pdf" ;;
  copy c ["tools"; "createatoms"; "Manual.pdf"] "CreateAtoms-Manual.pdf" ;;
  copy c ["doc"; "src"; "PDF"; "kspace.pdf"] "Kspace-Extra-Info.pdf" ;;
  copy c ["doc"; "src"; "PDF"; "pair_gayberne_extra.pdf"] "PairGayBerne-Manual.pdf" ;;
  copy c ["doc"; "src"; "PDF"; "pair_resquared_extra.pdf"] "PairReSquared-Manual.pdf" ;;
  copy c ["doc"; "src"; "PDF"; "PDLammps_overview.pdf"] "PDLAMMPS-Overview.pdf" ;;
  copy c ["doc"; "src"; "PDF"; "PDLammps_EPS.pdf"] "PDLAMMPS-EPS.pdf" ;;
  copy c ["doc"; "src"; "PDF"; "PDLammps_VES.pdf"] "PDLAMMPS-VES.pdf" ;;
  copy c ["doc"; "src"; "PDF"; "SPH_LAMMPS_userguide.pdf"] "SPH-Manual.pdf" ;;
  copy c ["doc"; "src"; "PDF"; "MACHDYN_LAMMPS_userguide.pdf"] "MACHDYN-Manual.pdf" ;;
  copy c ["doc"; "src"; "PDF"; "CG-DNA.pdf"] "CG-DNA-Manual.pdf".

Definition remove_if_exists (path : string) : M unit :=
  present <- exists_ path ;;
  when present (fs (Remove path)).

(** lines 393-405 *)
Definition prune : M unit :=
  for_each ["accelerate"; "kim"; "mscg"; "PACKAGES/quip"; "PACKAGES/vtk"]
           (fun d => emit (Rmtree (path_join "examples" [d]))) ;;
  for_each ["FERMI"; "KEPLER"]
           (fun d => emit (Rmtree (path_join "bench" [d]))) ;;
  emit (Rmtree "tools/msi2lmp/test") ;;
  remove_if_exists "potentials/C_10_10.mesocnt" ;;
  remove_if_exists "potentials/TABTP_10_10.mesont" ;;
  remove_if_exists "examples/PACKAGES/mesont/C_10_10.mesocnt" ;;
  remove_if_exists "examples/PACKAGES/mesont/TABTP_10_10.mesont".

(** lines 408-418 *)
Definition convert_files (c : config) : M unit :=
  system_v c "unix2dos LICENSE.txt README.txt tools/msi2lmp/README" ;;
  system_v c "find bench examples potentials python tools/msi2lmp/frc_files -type f -print | xargs unix2dos" ;;
  system_v c "for f in $(find tools bench examples potentials python -name README -print); do  mv -v $f $f.txt; done" ;;
  system_v c "for f in $(find bench examples -name in.\* -print); do  mv -v $f $f.lmp; done" ;;
  print ["Done"].

(** lines 422-434 *)
Definition nsisfile (c : config) : string :=
  if pythonflag c then path_join (homedir w) ["installer"; "lammps-python.nsis"]
  else if guiflag c then path_join (homedir w) ["installer"; "lammps-gui.nsis"]
  else if adminflag c then path_join (homedir w) ["installer"; "lammps-admin.nsis"]
  else if parflag c =? "ms" then path_join (homedir w) ["installer"; "lammps-msmpi.nsis"]
  else if msixflag c then path_join (homedir w) ["installer"; "lammps-msix.nsis"]
  else path_join (homedir w) ["installer"; "lammps-noadmin.nsis"].

(** lines 420-439 *)
Definition stage_installer (c : config) : M unit :=
  print ["Configuring and building installer"] ;;
  fs (Chdir (builddir c)) ;;
  fs (Copy (nsisfile c) (path_join (builddir c) ["lammps.nsis"])) ;;
  fs (Copy (path_join (homedir w) ["installer"; "FileAssociation.nsh"])
           (path_join (builddir c) ["FileAssociation.nsh"])) ;;
  fs (Copy (path_join (homedir w) ["installer"; "lammps.ico"])
           (path_join (builddir c) ["lammps.ico"])) ;;
  fs (Copy (path_join (homedir w) ["installer"; "lammps-text-logo-wide.bmp"])
           (path_join (builddir c) ["lammps-text-logo-wide.bmp"])).

(** line 448; [\w] is the class of the interpreter *)
Definition wordchar : uchar -> bool := is_word (unicode_word w).

Definition verexp : regex :=
  seqs [Bol; star dot; Lit dq;
        Group (plus wordchar); Lit " "; Group (plus wordchar); Lit " "; Group (plus wordchar);
        Lit dq; star dot; Eol].

(** lines 450-451: [None] is the AttributeError of [None.groups()] *)
Definition parse_version_line (vertxt : string) : option string :=
  match re_match verexp vertxt with
  | Some verseq => Some (String.concat "" verseq)
  | None => None
  end.

(** [time.strftime('%Y-%m-%d')] *)
Definition pad2 (z : Z) : string :=
  if (z <? 10)%Z then "0" ++ str_of_Z z else str_of_Z z.

Definition strftime_Ymd (t : Z * Z * Z) : string :=
  let '(year, month, day) := t in
  str_of_Z year ++ "-" ++ pad2 month ++ "-" ++ pad2 day.

(** lines 445-453 *)
Definition derive_version (c : config) : M string :=
  if (revflag c =? "stable") || (revflag c =? "release") || matches rev2 (revflag c) then
    let v_file := path_join (gitdir c) ["src"; "version.h"] in
    fs (ReadLine v_file) ;;
    fun h =>
      match parse_version_line (first_line w h v_file) with
      | Some version => (h, Ret version)
      | None => (h, Uncaught "AttributeError")
      end
  else if (revflag c =? "develop") || (revflag c =? "maintenance") then
    fun h => (h, Ret (strftime_Ymd (localtime w h)))
  else ret (revflag c).

(** lines 455-458; the name stays unbound for any other bitness *)
Definition mingwdir (c : config) : option string :=
  if bitflag c =? "32" then Some "/usr/i686-w64-mingw32/sys-root/mingw/bin/"
  else if bitflag c =? "64" then Some "/usr/x86_64-w64-mingw32/sys-root/mingw/bin/"
  else None.

(** lines 460-468 *)
Definition makensis_cmd (c : config) (dir version : string) : string :=
  let args := [PStr dir; PStr version; PStr (bitflag c); PStr (revflag c)] in
  if parflag c =? "mpi" then
    pyformat "makensis -DMINGW=%s -DVERSION=%s-MPI -DBIT=%s -DLMPREV=%s lammps.nsis" args
  else if parflag c =? "ms" then
    pyformat "makensis -DMINGW=%s -DVERSION=%s-MSMPI -DBIT=%s -DLMPREV=%s lammps.nsis" args
  else
    pyformat "makensis -DMINGW=%s -DVERSION=%s -DBIT=%s -DLMPREV=%s lammps.nsis" args.

Definition run_makensis (c : config) (version : string) : M unit :=
  match mingwdir c with
  | Some dir => system_v c (makensis_cmd c dir version)
  | None => raise "NameError"
  end.

(** lines 471-475 *)
Definition cleanup (c : config) : M unit :=
  fs (Chdir "..") ;;
  print ["Cleaning up..."] ;;
  emit (Rmtree (builddir c)) ;;
  print ["Done."].

(** lines 132-187: the option loop and the checks; nothing outside the
    process has been touched when they are done *)
Definition validate (args : list string) : M config :=
  c <- parse_args args defaults ;;
  checks c ;;
  check_revision c ;;
  ret c.

(** lines 189-475: the build proper *)
Definition build (c : config) : M unit :=
  locate_builddir ;;
  make_builddir c ;;
  tools <- probe_toolchain c ;;
  print_settings c tools ;;
  sync_sources c ;;
  fs (Chdir (builddir c)) ;;
  download_tools c ;;
  configure_main c ;;
  compile_main c ;;
  build_demo_plugins c ;;
  build_plugin_packages c ;;
  build_manual c ;;
  collect_files c ;;
  prune ;;
  convert_files c ;;
  stage_installer c ;;
  version <- derive_version c ;;
  run_makensis c version ;;
  cleanup c.

(** The whole script, run on [sys.argv[1:]]. *)
Definition script (args : list string) : M unit :=
  c <- validate args ;;
  build c.

Definition run (args : list string) : list event * outcome unit := script args [].

End WithWorld.

End Script.

(** ** Vocabulary of the specification

    The notions the specification uses to talk about the script, written
    down independently of the script's code. *)

Module Spec.
Import Py Re Script.

(** ASCII lower-casing, for "case-insensitive". *)
Definition lower_char (c : ascii) : ascii :=
  if in_range "A" "Z" c then ascii_of_nat (nat_of_ascii c + 32) else c.

Fixpoint lower (s : string) : string :=
  match s with
  | EmptyString => EmptyString
  | String c rest => String (lower_char c) (lower rest)
  end.

(** The vocabulary of boolean tokens. *)
Definition truthy_words : list string := ["yes"; "y"; "on"; "1"; "true"].
Definition falsy_words : list string := ["no"; "n"; "off"; "0"; "false"].

(** The flags of a command line: the tokens at the even positions. *)
Fixpoint flags_of (args : list string) : list string :=
  match args with
  | flag :: _ :: rest => flag :: flags_of rest
  | _ => []
  end.

(** The pairs [flag value] of a command line. *)
Fixpoint pairs_of (args : list string) : list (string * string) :=
  match args with
  | flag :: value :: rest => (flag, value) :: pairs_of rest
  | _ => []
  end.

(** The part of the configuration a flag is responsible for. *)
Definition setting (flag : string) (c : config) : list pyval :=
  if flag =? "-b" then [PStr (bitflag c)]
  else if flag =? "-j" then [PInt (numcpus c)]
  else if flag =? "-p" then [PStr (parflag c)]
  else if flag =? "-t" then [PStr (thrflag c)]
  else if flag =? "-y" then [PBool (pythonflag c)]
  else if flag =? "-u" then [PBool (guiflag c)]
  else if flag =? "-r" then [PStr (revflag c)]
  else if flag =? "-v" then [PBool (verbose c)]
  else if flag =? "-a" then [PBool (adminflag c); PBool (msixflag c)]
  else if flag =? "-g" then [PStr (gitdir c)]
  else [].

Definition set_numcpus (n : Z) (c : config) : config :=
  {| bitflag := bitflag c; numcpus := n; parflag := parflag c;
     pythonflag := pythonflag c; guiflag := guiflag c; thrflag := thrflag c;
     revflag := revflag c; verbose := verbose c; gitdir := gitdir c;
     adminflag := adminflag c; msixflag := msixflag c |}.

(** Revisions. *)
Definition keywords : list string := ["stable"; "release"; "develop"; "maintenance"].

Definition months : list string :=
  ["Jan"; "Feb"; "Mar"; "Apr"; "May"; "Jun"; "Jul"; "Aug"; "Sep"; "Oct"; "Nov"; "Dec"].

(** Every byte of a text is of a kind. *)
Definition all_chars (p : ascii -> bool) (s : string) : Prop :=
  forallb p (chars s) = true.

(** A decimal digit: one of 0-9, or a character beyond ASCII that the
    character database of the interpreter takes for one. *)
Definition decimal (w : World) (ch : uchar) : Prop :=
  (exists b, ch = String b EmptyString /\ ascii_digit b = true)
  \/ (multibyte ch = true /\ unicode_digit w ch = true).

(** A dated tag: [patch_] or [stable_], a day number, a month name and a
    year of four digits. *)
Definition dated_tag (w : World) (s : string) : Prop :=
  exists kind day month year,
    s = kind ++ "_" ++ day ++ month ++ year
    /\ In kind ["patch"; "stable"]
    /\ day <> "" /\ Forall (decimal w) (uchars day)
    /\ In month months
    /\ List.length (uchars year) = 4 /\ Forall (decimal w) (uchars year).

(** A hexadecimal digit, in either case. *)
Definition is_hex (c : ascii) : bool :=
  (in_range "0" "9" c || in_range "a" "f" c || in_range "A" "F" c)%bool.

Definition hex40 (s : string) : Prop :=
  String.length s = 40 /\ all_chars is_hex s.

(** The same with the letters in lower case only. *)
Definition lower_hex40 (s : string) : Prop :=
  String.length s = 40 /\ all_chars ascii_hexlower s.

(** The first name in a priority list whose condition holds. *)
Fixpoint first_holding (choices : list (bool * string)) (otherwise : string) : string :=
  match choices with
  | [] => otherwise
  | (true, name) :: _ => name
  | (false, _) :: rest => first_holding rest otherwise
  end.

(** A word character: an ASCII letter or digit or the underscore, or a
    character beyond ASCII that the character database of the
    interpreter takes for alphanumeric. *)
Definition alphanumeric (w : World) (ch : uchar) : Prop :=
  (exists b, ch = String b EmptyString /\ ascii_word b = true)
  \/ (multibyte ch = true /\ unicode_word w ch = true).

(** A word token of the version line. *)
Definition word (w : World) (s : string) : Prop :=
  s <> "" /\ Forall (alphanumeric w) (uchars s).

Definition no_char (c : ascii) (s : string) : Prop :=
  forallb (fun d => negb (Ascii.eqb d c)) (chars s) = true.

(** What the script prints when it turns a run down: the usage text,
    or a line that starts with its own name and ERROR. *)
Definition diagnostic (w : World) (text : string) : Prop :=
  text = print_text [helpmsg w]
  \/ exists msg, text = print_text [argv0 w; "ERROR:"; msg].

(** A computation that only validates.  It touches nothing: it returns
    or dies of an exception with the trace as it was, or it prints, a
    diagnostic last, and leaves through [sys.exit()]. *)
Definition validating {A} (w : World) (m : M A) : Prop :=
  forall h,
    (exists a, m h = (h, Ret a))
    \/ (exists e, m h = (h, Uncaught e))
    \/ (exists out d,
          diagnostic w d
          /\ m h = (List.app h (map Stdout (List.app out [d])), Exit 0%Z)).

(** A text within one line: no line feed, except possibly a last one. *)
Definition single_line (s : string) : Prop :=
  exists rest, (s = rest \/ s = rest ++ nl) /\ no_char LF rest.

(** The number of double quotes in a text. *)
Definition DQ : ascii := ascii_of_nat 34.

Definition quotes (l : list uchar) : nat :=
  List.length (filter (String.eqb dq) l).






(** The external commands of a trace. *)
Definition shell_commands (tr : list event) : list string :=
  flat_map (fun e => match e with Shell cmd => [cmd] | _ => [] end) tr.

End Spec.

(** ** A sample environment, for concrete runs *)

Module Sample.
Import Py Re Script.

(** A small part of the character database of Python 3: the
    Arabic-Indic digits U+0660 to U+0669 are decimal digits, the letters
    of Latin-1 from U+00C0 to U+00FF are alphanumeric. *)
Definition arabic_indic_digit (ch : uchar) : bool :=
  match ch with
  | String b0 (String b1 EmptyString) =>
      (Nat.eqb (byte b0) 217 && between 160 169 b1)%bool
  | _ => false
  end.

Definition latin1_letter (ch : uchar) : bool :=
  match ch with
  | String b0 (String b1 EmptyString) =>
      (Nat.eqb (byte b0) 195 && between 128 191 b1
       && negb (Nat.eqb (byte b1) 151) && negb (Nat.eqb (byte b1) 183))%bool
  | _ => false
  end.

Definition world : World := {|
  argv0 := "cmake-win-on-linux.py";
  homedir := "/home/user/lammps-packages/mingw-cross";
  exename := "cmake-win-on-linux.py";
  cpu_count := Some 4%Z;
  py_int := fun s => if s =? "2" then Some 2%Z
                     else if s =? "16" then Some 16%Z else None;
  fullpath := fun p => if p =? "." then "/home/user/build" else p;
  fullpath_error := fun _ => None;
  unicode_digit := arabic_indic_digit;
  unicode_word := fun ch => (arabic_indic_digit ch || latin1_letter ch)%bool;
  env_PATH := Some "/usr/local/bin:/usr/bin";
  is_exe := fun f => String.prefix "/usr/bin/" f;
  path_exists := fun _ _ => true;
  glob := fun _ _ => [];
  shell := fun _ _ => (true, "");
  raises := fun _ _ => None;
  first_line := fun _ _ =>
    "#define LAMMPS_VERSION " ++ dq ++ "2 Aug 2023" ++ dq ++ nl;
  localtime := fun _ => (2024, 3, 5)%Z
|}.




Definition on_revision (rev : string) : config := {|
  bitflag := "64"; numcpus := 4; parflag := "no"; pythonflag := false;
  guiflag := false; thrflag := "omp"; revflag := rev; verbose := false;
  gitdir := "/src/lammps"; adminflag := true; msixflag := false
|}.

(** [patch_] followed by the Arabic-Indic digits one and five, [Mar2024]. *)
Definition arabic_day : string :=
  String (ascii_of_nat 217) (String (ascii_of_nat 161)
    (String (ascii_of_nat 217) (String (ascii_of_nat 165) EmptyString))).

Definition arabic_tag : string := "patch_" ++ arabic_day ++ "Mar2024".

Definition upper_hash : string := "0123456789ABCDEF0123456789ABCDEF01234567".

End Sample.

(** ** Vocabulary for the further properties *)

Module Extra.
Import Py Re Script Spec.

(** The flags the option loop knows. *)
Definition known_flags : list string :=
  ["-b"; "-j"; "-p"; "-t"; "-y"; "-u"; "-r"; "-v"; "-a"; "-g"].

(** What the checks of lines 173-187 ask of a configuration. *)
Definition well_formed (w : World) (c : config) : Prop :=
  In (bitflag c) ["32"; "64"]
  /\ In (parflag c) ["no"; "mpi"; "ms"]
  /\ In (thrflag c) ["no"; "omp"]
  /\ (pythonflag c && guiflag c)%bool = false
  /\ valid_revision w (revflag c) = true.

(** An operation that went through when done after the trace [h]: an
    external command that was started and returned status zero, a file
    or network operation that did not raise.  Printing and
    [shutil.rmtree(_, True)] always go through. *)
Definition went_through1 (w : World) (h : list event) (e : event) : Prop :=
  match e with
  | Shell cmd => raises w h e = None /\ fst (shell w (List.app h [e]) cmd) = true
  | Stdout _ => True
  | Rmtree _ => True
  | _ => raises w h e = None
  end.

Fixpoint went_through (w : World) (h ext : list event) : Prop :=
  match ext with
  | [] => True
  | e :: ext' => went_through1 w h e /\ went_through w (List.app h [e]) ext'
  end.

(** An operation that failed. *)
Definition failed (w : World) (h : list event) (e : event) : Prop :=
  match e with
  | Shell cmd => raises w h e <> None \/ fst (shell w (List.app h [e]) cmd) = false
  | Stdout _ => False
  | Rmtree _ => False
  | _ => raises w h e <> None
  end.

Definition only_prints (l : list event) : Prop :=
  Forall (fun e => exists text, e = Stdout text) l.

(** The shape of what a computation adds to the trace [h]: operations
    that went through, then possibly the end.  A computation that
    returns has added nothing else.  One that leaves through
    [sys.exit()] has, after the good part, only printed, or done one
    operation that failed and then only printed.  One that an exception
    ends has done nothing more, or one operation that failed and then at
    most printed. *)
Definition stops_at_failure {A} (w : World) (h ext : list event) (o : outcome A) : Prop :=
  exists good tail,
    ext = List.app good tail
    /\ went_through w h good
    /\ match o with
       | Ret _ => tail = []
       | Exit st =>
           st = 0%Z
           /\ exists prints,
               prints <> [] /\ only_prints prints
               /\ (tail = prints
                   \/ exists e, tail = e :: prints /\ failed w (List.app h good) e)
       | Uncaught _ =>
           tail = []
           \/ exists e prints,
               tail = e :: prints /\ only_prints prints
               /\ failed w (List.app h good) e
       end.

Definition fail_fast {A} (w : World) (m : M A) : Prop :=
  forall h h' o, m h = (h', o) ->
                 exists ext, h' = List.app h ext /\ stops_at_failure w h ext o.

(** The events that [fs] is used for. *)
Definition file_operation (e : event) : bool :=
  match e with
  | Shell _ | Stdout _ | Rmtree _ => false
  | _ => true
  end.

(** Where a packaged plugin goes. *)
Definition move_one (exe : string) : event :=
  Move exe ("../" ++ basename exe).

(** What a pattern denotes together with the groups it captures. *)
Fixpoint captures (r : regex) (pos : nat) (u v : list uchar) (cs : list string) : Prop :=
  match r with
  | Bol => u = [] /\ pos = 0 /\ cs = []
  | Eol => u = [] /\ (v = [] \/ v = [nl]) /\ cs = []
  | Lit w => u = uchars w /\ cs = []
  | Seq r1 r2 =>
      exists u1 u2 cs1 cs2,
        u = List.app u1 u2 /\ cs = List.app cs1 cs2
        /\ captures r1 pos u1 (List.app u2 v) cs1
        /\ captures r2 (pos + List.length u1) u2 v cs2
  | Alt r1 r2 => captures r1 pos u v cs \/ captures r2 pos u v cs
  | Many p lo hi =>
      lo <= List.length u /\ within hi (List.length u) /\ forallb p u = true /\ cs = []
  | Group r1 =>
      exists cs1, captures r1 pos u v cs1
                  /\ cs = List.app cs1 [text u]
  end.

(** The part of the name of the working directory that tells the kind
    of installer. *)
Definition flavour (c : config) : string :=
  if adminflag c then ""
  else if pythonflag c then "-python"
  else if guiflag c then "-gui"
  else if msixflag c then "-msix"
  else "-noadmin".

(** Empty, or starting with a dash. *)
Definition dashed (s : string) : Prop :=
  s = "" \/ exists rest, s = String "-" rest.

(** The sample environment with one packaged plugin to be found. *)
Definition packaged : World := {|
  argv0 := argv0 Sample.world;
  homedir := homedir Sample.world;
  exename := exename Sample.world;
  cpu_count := cpu_count Sample.world;
  py_int := py_int Sample.world;
  fullpath := fullpath Sample.world;
  fullpath_error := fullpath_error Sample.world;
  unicode_digit := unicode_digit Sample.world;
  unicode_word := unicode_word Sample.world;
  env_PATH := env_PATH Sample.world;
  is_exe := is_exe Sample.world;
  path_exists := path_exists Sample.world;
  glob := fun _ pattern =>
            if pattern =? "paceplugin/LAMMPS*plugin*.exe"
            then ["paceplugin/LAMMPS-ML-PACE-plugin.exe"] else [];
  shell := shell Sample.world;
  raises := raises Sample.world;
  first_line := first_line Sample.world;
  localtime := localtime Sample.world
|}.

End Extra.

(** * Properties *)

(** ** Strings and lists *)

Module StrFacts.
Import Py.

Lemma mem_In (s : string) (l : list string) :
  existsb (String.eqb s) l = true <-> In s l.
Proof.
  rewrite existsb_exists. split.
  - intros [x [Hin Heq]]. apply String.eqb_eq in Heq. now subst.
  - intros Hin. exists s. split; [assumption | apply String.eqb_refl].
Qed.

Lemma mem_not_In (s : string) (l : list string) :
  existsb (String.eqb s) l = false <-> ~ In s l.
Proof.
  rewrite <- mem_In. destruct (existsb (String.eqb s) l); split; congruence.
Qed.

Lemma append_nil_r (s : string) : s ++ "" = s.
Proof. induction s; simpl; congruence. Qed.

Lemma append_assoc (a b c : string) : (a ++ b) ++ c = a ++ b ++ c.
Proof. induction a; simpl; congruence. Qed.

Lemma chars_app (a b : string) : chars (a ++ b) = (chars a ++ chars b)%list.
Proof. unfold chars. induction a; simpl; congruence. Qed.

Lemma chars_length (s : string) : List.length (chars s) = String.length s.
Proof. unfold chars. induction s; simpl; congruence. Qed.

Lemma chars_inj (a b : string) : chars a = chars b -> a = b.
Proof.
  unfold chars. intros H.
  rewrite <- (string_of_list_ascii_of_string a), <- (string_of_list_ascii_of_string b).
  now rewrite H.
Qed.

Lemma chars_of_list (l : list ascii) : chars (string_of_list_ascii l) = l.
Proof. apply list_ascii_of_string_of_list_ascii. Qed.

End StrFacts.

(** ** Boolean tokens *)

Module BoolFlags.
Import Py Re Script Spec StrFacts.

(** C2 (as the code has it).  [getbool] accepts exactly the spellings
    yes, Yes, Y, y, on, 1, True, true as true and no, No, N, n, off, 0,
    False, false as false.  Every other token, other case variants
    included, ends the run with a diagnostic that names the option the
    token was given to. *)
Theorem getbool_vocabulary (w : World) (arg keyword : string) (h : list event) :
  (snd (getbool w arg keyword h) = Ret true
   <-> In arg ["yes"; "Yes"; "Y"; "y"; "on"; "1"; "True"; "true"])
  /\ (snd (getbool w arg keyword h) = Ret false
      <-> In arg ["no"; "No"; "N"; "n"; "off"; "0"; "False"; "false"])
  /\ (~ In arg ["yes"; "Yes"; "Y"; "y"; "on"; "1"; "True"; "true";
                "no"; "No"; "N"; "n"; "off"; "0"; "False"; "false"]
      -> getbool w arg keyword h
         = (List.app h [Stdout (print_text
                                  [argv0 w; "ERROR:";
                                   "Unknown " ++ keyword ++ " option: " ++ arg])],
            Exit 0%Z)).
Proof.
  unfold getbool, mem.
  destruct (existsb (String.eqb arg) truthy) eqn:Et.
  - pose proof (proj1 (mem_In _ _) Et) as Hin. unfold truthy in Hin.
    repeat split; intros; simpl in *; try tauto; try discriminate;
      exfalso; intuition (subst; discriminate).
  - pose proof (proj1 (mem_not_In _ _) Et) as Hnt. unfold truthy in Hnt.
    destruct (existsb (String.eqb arg) falsy) eqn:Ef.
    + pose proof (proj1 (mem_In _ _) Ef) as Hin. unfold falsy in Hin.
      repeat split; intros; simpl in *; try tauto; try discriminate;
        exfalso; tauto.
    + pose proof (proj1 (mem_not_In _ _) Ef) as Hnf. unfold falsy in Hnf.
      repeat split; intros; simpl in *; try tauto; try discriminate.
      rewrite append_nil_r. reflexivity.
Qed.

(** At a concrete token outside the sixteen spellings. *)
Lemma getbool_vocabulary_witness :
  getbool Sample.world "maybe" "gui" []
  = ([Stdout (print_text ["cmake-win-on-linux.py"; "ERROR:"; "Unknown gui option: maybe"])],
     Exit 0%Z).
Proof.
  apply (proj2 (proj2 (getbool_vocabulary Sample.world "maybe" "gui" []))).
  simpl. intuition discriminate.
Defined.

(** C2 as stated fails: YES is a case variant of the truthy token yes,
    and [getbool] turns it down. *)
Lemma getbool_not_case_insensitive :
  In (lower "YES") truthy_words
  /\ getbool Sample.world "YES" "python" []
     = ([Stdout ("cmake-win-on-linux.py ERROR: Unknown python option: YES" ++ nl)],
        Exit 0%Z).
Proof.
  split; [simpl; tauto | reflexivity].
Qed.
End BoolFlags.

(** ** Names derived from the flags *)

Module Names.
Import Py Re Script Spec StrFacts.

Lemma append_cancel_l (p a b : string) : p ++ a = p ++ b -> a = b.
Proof. induction p; simpl; intros H; [assumption | injection H; auto]. Qed.

(** Below the installer folder, joining a relative name only appends it. *)
Lemma join_installer (home : string) :
  exists prefix, forall name,
    startswith "/" name = false ->
    path_join home ["installer"; name] = prefix ++ name.
Proof.
  unfold path_join. simpl.
  destruct (endswith_char "/" (join2 home "installer")) eqn:E.
  - exists (join2 home "installer"). intros name Hn.
    unfold join2 at 1. rewrite Hn, E, orb_true_r. reflexivity.
  - destruct (join2 home "installer" =? "") eqn:E0.
    + exists (join2 home "installer"). intros name Hn.
      unfold join2 at 1. rewrite Hn, E0. reflexivity.
    + exists (join2 home "installer" ++ "/"). intros name Hn.
      unfold join2 at 1. rewrite Hn, E0, E. simpl.
      now rewrite append_assoc.
Qed.

(** C6.  The installer template is the one of the first condition that
    holds in the order python, gui, admin, MS-MPI, msix, and the generic
    template when none holds; it is one of the six templates and no
    other of the six is the chosen file. *)
Theorem nsisfile_priority (w : World) (c : config) :
  let templates := ["lammps-python.nsis"; "lammps-gui.nsis"; "lammps-admin.nsis";
                    "lammps-msmpi.nsis"; "lammps-msix.nsis"; "lammps-noadmin.nsis"] in
  let chosen :=
    first_holding [(pythonflag c, "lammps-python.nsis");
                   (guiflag c, "lammps-gui.nsis");
                   (adminflag c, "lammps-admin.nsis");
                   (parflag c =? "ms", "lammps-msmpi.nsis");
                   (msixflag c, "lammps-msix.nsis")]
                  "lammps-noadmin.nsis" in
  nsisfile w c = path_join (homedir w) ["installer"; chosen]
  /\ In chosen templates
  /\ forall other, In other templates ->
       nsisfile w c = path_join (homedir w) ["installer"; other] -> other = chosen.
Proof.
  intros templates chosen.
  assert (Hsel : nsisfile w c = path_join (homedir w) ["installer"; chosen]).
  { unfold nsisfile, chosen.
    destruct (pythonflag c), (guiflag c), (adminflag c), (parflag c =? "ms"), (msixflag c);
      reflexivity. }
  assert (Hin : In chosen templates).
  { unfold chosen, templates.
    destruct (pythonflag c), (guiflag c), (adminflag c), (parflag c =? "ms"), (msixflag c);
      simpl; tauto. }
  split; [exact Hsel | split; [exact Hin |]].
  intros other Hother Heq. rewrite Hsel in Heq.
  destruct (join_installer (homedir w)) as [prefix Hp].
  assert (Hrel : forall n, In n templates -> startswith "/" n = false).
  { intros n Hn. unfold templates in Hn. simpl in Hn.
    intuition (subst; reflexivity). }
  rewrite (Hp chosen (Hrel _ Hin)), (Hp other (Hrel _ Hother)) in Heq.
  symmetry. exact (append_cancel_l _ _ _ Heq).
Qed.

(** At a configuration where python and msix are both asked for. *)
Lemma nsisfile_priority_witness :
  nsisfile Sample.world
    {| bitflag := "64"; numcpus := 4; parflag := "ms"; pythonflag := true;
       guiflag := false; thrflag := "omp"; revflag := "stable"; verbose := false;
       gitdir := "/src/lammps"; adminflag := false; msixflag := true |}
  = "/home/user/lammps-packages/mingw-cross/installer/lammps-python.nsis".
Proof.
  exact (proj1 (nsisfile_priority Sample.world
    {| bitflag := "64"; numcpus := 4; parflag := "ms"; pythonflag := true;
       guiflag := false; thrflag := "omp"; revflag := "stable"; verbose := false;
       gitdir := "/src/lammps"; adminflag := false; msixflag := true |})).
Defined.

(** C8.  The name of the working directory: the two examples of the
    specification, and the general shape: the prefix tmp, the four flags
    joined by dashes, and, only without admin installation, one suffix
    by the priority python, gui, msix, noadmin. *)
Theorem builddir_name_shape :
  (forall n py gui v g msix,
      builddir_name
        {| bitflag := "64"; numcpus := n; parflag := "mpi"; pythonflag := py;
           guiflag := gui; thrflag := "omp"; revflag := "stable"; verbose := v;
           gitdir := g; adminflag := true; msixflag := msix |}
      = "tmp-64-mpi-omp-stable")
  /\ (forall n gui v g msix,
      builddir_name
        {| bitflag := "64"; numcpus := n; parflag := "mpi"; pythonflag := true;
           guiflag := gui; thrflag := "omp"; revflag := "stable"; verbose := v;
           gitdir := g; adminflag := false; msixflag := msix |}
      = "tmp-64-mpi-omp-stable-python")
  /\ (forall c,
      builddir_name c
      = "tmp-" ++ bitflag c ++ "-" ++ parflag c ++ "-" ++ thrflag c ++ "-" ++ revflag c
        ++ (if adminflag c then ""
            else if pythonflag c then "-python"
            else if guiflag c then "-gui"
            else if msixflag c then "-msix"
            else "-noadmin"))
  /\ (forall w c, builddir w c = path_join (fullpath w ".") [builddir_name c]).
Proof.
  repeat split.
  intros c. unfold builddir_name.
  destruct (adminflag c), (pythonflag c), (guiflag c), (msixflag c); reflexivity.
Qed.

End Names.

(** ** The option loop and the checks *)

Module ParseFacts.
Import Py Re Script Spec StrFacts.

(** Induction over a command line, two tokens at a time. *)
Lemma pairs_ind (P : list string -> Prop) :
  P [] -> (forall x, P [x]) -> (forall x y l, P l -> P (x :: y :: l)) ->
  forall l, P l.
Proof.
  intros H0 H1 H2.
  assert (H : forall l, P l /\ forall x, P (x :: l)).
  { induction l as [|y l [IH1 IH2]]; split; auto. }
  intros l. apply H.
Qed.

Lemma bind_ret_inv {A B} (m : M A) (f : A -> M B) h h' b :
  bind m f h = (h', Ret b) ->
  exists a h1, m h = (h1, Ret a) /\ f a h1 = (h', Ret b).
Proof.
  unfold bind. destruct (m h) as [h1 [a|st|e]]; intros H; try discriminate.
  eauto.
Qed.

Lemma validating_ret {A} w (a : A) : validating w (ret a).
Proof. intros h. left. now exists a. Qed.

Lemma validating_raise {A} w e : validating w (@raise A e).
Proof. intros h. right. left. now exists e. Qed.

Lemma validating_error {A} w msg : validating w (@error w A msg).
Proof.
  intros h. right. right. exists [].
  destruct msg as [[|c s]|].
  - exists (print_text [helpmsg w]). split; [now left | reflexivity].
  - exists (print_text [argv0 w; "ERROR:"; String c s]).
    split; [right; now eexists | reflexivity].
  - exists (print_text [helpmsg w]). split; [now left | reflexivity].
Qed.

Lemma validating_bind {A B} w (m : M A) (f : A -> M B) :
  validating w m -> (forall a, validating w (f a)) -> validating w (bind m f).
Proof.
  intros Hm Hf h. unfold bind.
  destruct (Hm h) as [[a Ha]|[[e He]|[out [d [Hd Ho]]]]].
  - rewrite Ha. apply Hf.
  - rewrite He. right. left. now exists e.
  - rewrite Ho. right. right. now exists out, d.
Qed.

(** A line printed before the diagnostic. *)
Lemma validating_print_error {A} w line msg :
  validating w (bind (print [line]) (fun _ => @error w A msg)).
Proof.
  intros h. right. right.
  destruct (validating_error (A:=A) w msg (List.app h [Stdout (print_text [line])]))
    as [[a Ha]|[[e He]|[out [d [Hd Ho]]]]].
  - unfold error, bind, print, emit, sys_exit in Ha.
    destruct msg as [[|? ?]|]; discriminate.
  - unfold error, bind, print, emit, sys_exit in He.
    destruct msg as [[|? ?]|]; discriminate.
  - exists (print_text [line] :: out), d. split; [assumption|].
    unfold bind at 1. unfold print at 1. unfold emit. rewrite Ho.
    now rewrite <- app_assoc.
Qed.

Lemma validating_when w b (m : M unit) : validating w m -> validating w (when b m).
Proof. destruct b; simpl; auto using validating_ret. Qed.

Lemma validating_getbool w arg keyword : validating w (getbool w arg keyword).
Proof.
  unfold getbool.
  destruct (mem arg truthy); [apply validating_ret|].
  destruct (mem arg falsy); [apply validating_ret | apply validating_error].
Qed.

Create HintDb validating.
#[local] Hint Resolve validating_ret validating_raise validating_error
  validating_bind validating_when validating_getbool validating_print_error : validating.

Lemma validating_parse_flag w flag value c : validating w (parse_flag w flag value c).
Proof.
  unfold parse_flag.
  repeat match goal with
         | |- context [if ?b then _ else _] => destruct b
         | |- context [match ?o with Some _ => _ | None => _ end] => destruct o
         end; auto 6 with validating.
  apply validating_print_error.
Qed.

Lemma validating_parse_args w args : forall c, validating w (parse_args w args c).
Proof.
  induction args as [| x | x y l IH] using pairs_ind; intros c.
  - apply validating_ret.
  - apply validating_print_error.
  - simpl. apply validating_bind; [apply validating_parse_flag | auto].
Qed.

Lemma validating_checks w c : validating w (checks w c).
Proof. unfold checks. auto 10 with validating. Qed.

Lemma validating_check_revision w c : validating w (check_revision w c).
Proof. unfold check_revision. auto with validating. Qed.

Lemma validating_validate w args : validating w (validate w args).
Proof.
  unfold validate.
  auto 10 using validating_parse_args, validating_checks, validating_check_revision
    with validating.
Qed.

End ParseFacts.

(** ** Rejected command lines *)

Module Rejection.
Import Py Re Script Spec StrFacts ParseFacts.

(** C1 (what the code does).  A command line that the option loop or
    the checks turn down makes the script print, a diagnostic or the
    usage text last, and nothing else; it then leaves through
    [sys.exit()], so the process ends with status 0. *)
Theorem rejection_exits_with_status_zero
        (w : World) (args : list string) (tr : list event) (st : Z) :
  validate w args [] = (tr, Exit st) ->
  (exists out d, diagnostic w d /\ tr = map Stdout (List.app out [d]))
  /\ run w args = (tr, Exit st)
  /\ exit_status (snd (run w args)) = 0%Z.
Proof.
  intros H.
  assert (Hrun : run w args = (tr, Exit st)).
  { unfold run, script, bind. now rewrite H. }
  destruct (validating_validate w args []) as [[a Ha]|[[e He]|[out [d [Hd Ho]]]]];
    try congruence.
  rewrite H in Ho. injection Ho as Htr Hst. subst st.
  repeat split.
  - exists out, d. split; [assumption | exact Htr].
  - exact Hrun.
  - now rewrite Hrun.
Qed.

(** The four ways to be turned down: an unknown flag, a flag without its
    value, a bad boolean token, a failed check. *)
Lemma rejection_exits_with_status_zero_witness :
  exit_status (snd (run Sample.world ["-x"; "1"])) = 0%Z
  /\ exit_status (snd (run Sample.world ["-b"])) = 0%Z
  /\ exit_status (snd (run Sample.world ["-y"; "maybe"])) = 0%Z
  /\ run Sample.world ["-b"; "16"]
     = ([Stdout ("cmake-win-on-linux.py ERROR: Unsupported bitness flag 16" ++ nl)],
        Exit 0%Z).
Proof.
  split; [|split; [|split]].
  - eapply (rejection_exits_with_status_zero Sample.world ["-x"; "1"]).
    vm_compute. reflexivity.
  - eapply (rejection_exits_with_status_zero Sample.world ["-b"]).
    vm_compute. reflexivity.
  - eapply (rejection_exits_with_status_zero Sample.world ["-y"; "maybe"]).
    vm_compute. reflexivity.
  - eapply (rejection_exits_with_status_zero Sample.world ["-b"; "16"]).
    vm_compute. reflexivity.
Defined.

(** When the option loop returns, nothing has been printed or done. *)
Lemma parse_args_silent w args c0 h h' c :
  parse_args w args c0 h = (h', Ret c) -> h' = h.
Proof.
  intros H.
  destruct (validating_parse_args w args c0 h) as [[a Ha]|[[e He]|[out [d [Hd Ho]]]]];
    congruence.
Qed.

(** C5.  When the option loop leaves both python and gui support on,
    the run ends in [sys.exit()] after printing one diagnostic line and
    nothing else has happened: no event other than that line is in the
    trace.  Unless one of the three checks before it has already failed,
    the diagnostic is the one about Python and the GUI. *)
Theorem python_and_gui_rejected
        (w : World) (args : list string) (c : config) (tr : list event) :
  parse_args w args (defaults w) [] = (tr, Ret c) ->
  pythonflag c = true -> guiflag c = true ->
  exists msg st,
    run w args = ([Stdout (print_text [argv0 w; "ERROR:"; msg])], Exit st)
    /\ (In (bitflag c) ["32"; "64"] -> In (parflag c) ["no"; "mpi"; "ms"] ->
        In (thrflag c) ["no"; "omp"] ->
        msg = "May only include either Python or LAMMPS GUI").
Proof.
  intros H Hpy Hgui.
  pose proof (parse_args_silent _ _ _ _ _ _ H) as ->.
  unfold run, script, validate.
  unfold bind at 1 2. rewrite H.
  unfold checks. rewrite Hpy, Hgui.
  destruct (bitflag c =? "32") eqn:B32; destruct (bitflag c =? "64") eqn:B64;
    destruct (parflag c =? "no") eqn:Pno; destruct (parflag c =? "mpi") eqn:Pmpi;
      destruct (parflag c =? "ms") eqn:Pms;
      destruct (thrflag c =? "no") eqn:Tno; destruct (thrflag c =? "omp") eqn:Tomp;
    simpl; (eexists; exists 0%Z; split; [reflexivity|]);
    intros Hb Hp Ht; simpl in Hb, Hp, Ht;
    rewrite ?String.eqb_neq in *; try reflexivity; exfalso;
    intuition congruence.
Qed.

Lemma python_and_gui_rejected_witness :
  exists msg st,
    run Sample.world ["-y"; "yes"; "-u"; "yes"; "-p"; "mpi"]
    = ([Stdout (print_text ["cmake-win-on-linux.py"; "ERROR:"; msg])], Exit st)
    /\ msg = "May only include either Python or LAMMPS GUI".
Proof.
  destruct (python_and_gui_rejected Sample.world ["-y"; "yes"; "-u"; "yes"; "-p"; "mpi"]
              _ _ eq_refl eq_refl eq_refl) as [msg [st [Hrun Hmsg]]].
  exists msg, st. split; [exact Hrun|].
  apply Hmsg; simpl; tauto.
Defined.

End Rejection.

(** ** Which flag sets what *)

Module Options.
Import Py Re Script Spec StrFacts ParseFacts.

Lemma getbool_ret w arg keyword h h' b :
  getbool w arg keyword h = (h', Ret b) ->
  h' = h /\ forall w2 keyword2 h2, getbool w2 arg keyword2 h2 = (h2, Ret b).
Proof.
  unfold getbool.
  destruct (mem arg truthy); [|destruct (mem arg falsy)]; intros H;
    try (injection H as <- <-; split; reflexivity).
  unfold error, bind, print, emit, sys_exit in H. simpl in H. discriminate.
Qed.

(** Take the flag chain of [parse_flag] apart, one comparison at a time. *)
Ltac flag_cases H :=
  unfold parse_flag in H;
  repeat match type of H with
         | context [if String.eqb ?f ?s then _ else _] =>
             destruct (String.eqb_spec f s); [subst|]; cbv beta iota in H
         end.

Ltac getbool_inv H :=
  let a := fresh "b" in let h1 := fresh "h" in
  let Hg := fresh "Hg" in let Hr := fresh "Hr" in
  apply bind_ret_inv in H; destruct H as [a [h1 [Hg Hr]]];
  apply getbool_ret in Hg; destruct Hg as [-> Hg];
  injection Hr as <- <-.

Ltac setting_cases f :=
  unfold setting;
  repeat match goal with
         | |- context [if String.eqb f ?s then _ else _] =>
             destruct (String.eqb_spec f s); [subst|]; cbv beta iota
         end.

(** A flag changes nothing but its own setting. *)
Lemma parse_flag_other w flag value c h h' c' other :
  parse_flag w flag value c h = (h', Ret c') ->
  other <> flag -> setting other c' = setting other c.
Proof.
  intros H Hne. flag_cases H.
  - injection H as <- <-. setting_cases other; simpl; congruence.
  - destruct (py_int w value); [|discriminate].
    injection H as <- <-. setting_cases other; simpl; congruence.
  - injection H as <- <-. setting_cases other; simpl; congruence.
  - injection H as <- <-. setting_cases other; simpl; congruence.
  - getbool_inv H. setting_cases other; simpl; congruence.
  - getbool_inv H. setting_cases other; simpl; congruence.
  - injection H as <- <-. setting_cases other; simpl; congruence.
  - getbool_inv H. setting_cases other; simpl; congruence.
  - destruct (mem value ["msix"; "MSIX"]).
    + injection H as <- <-. setting_cases other; simpl; congruence.
    + getbool_inv H. setting_cases other; simpl; congruence.
  - destruct (fullpath_error w value); [discriminate|].
    injection H as <- <-. setting_cases other; simpl; congruence.
  - unfold bind, print, emit, error, sys_exit in H. discriminate.
Qed.

(** What a flag sets depends on its value alone, not on what was set
    before. *)
Lemma parse_flag_own w flag value c h h' c' :
  parse_flag w flag value c h = (h', Ret c') ->
  h' = h /\
  forall c0 h0, exists c1,
      parse_flag w flag value c0 h0 = (h0, Ret c1)
      /\ setting flag c' = setting flag c1.
Proof.
  intros H. flag_cases H.
  - injection H as <- <-. split; [reflexivity|]. intros; eexists; split; reflexivity.
  - destruct (py_int w value) eqn:E; [|discriminate].
    injection H as <- <-. split; [reflexivity|]. intros; eexists; split.
    + unfold parse_flag. simpl. rewrite E. reflexivity.
    + reflexivity.
  - injection H as <- <-. split; [reflexivity|]. intros; eexists; split; reflexivity.
  - injection H as <- <-. split; [reflexivity|]. intros; eexists; split; reflexivity.
  - getbool_inv H. split; [reflexivity|]. intros; eexists; split.
    + unfold parse_flag, bind. simpl. rewrite Hg. reflexivity.
    + reflexivity.
  - getbool_inv H. split; [reflexivity|]. intros; eexists; split.
    + unfold parse_flag, bind. simpl. rewrite Hg. reflexivity.
    + reflexivity.
  - injection H as <- <-. split; [reflexivity|]. intros; eexists; split; reflexivity.
  - getbool_inv H. split; [reflexivity|]. intros; eexists; split.
    + unfold parse_flag, bind. simpl. rewrite Hg. reflexivity.
    + reflexivity.
  - destruct (mem value ["msix"; "MSIX"]) eqn:E.
    + injection H as <- <-. split; [reflexivity|]. intros; eexists; split.
      * unfold parse_flag, mem in *. simpl in E |- *. rewrite E. reflexivity.
      * reflexivity.
    + getbool_inv H. split; [reflexivity|]. intros; eexists; split.
      * unfold parse_flag, bind, mem in *. simpl in E |- *. rewrite E, Hg. reflexivity.
      * reflexivity.
  - destruct (fullpath_error w value) eqn:E; [discriminate|].
    injection H as <- <-. split; [reflexivity|]. intros; eexists; split.
    + unfold parse_flag. simpl. rewrite E. reflexivity.
    + reflexivity.
  - unfold bind, print, emit, error, sys_exit in H. discriminate.
Qed.

Lemma parse_args_app w pre rest :
  Nat.even (List.length pre) = true ->
  forall c0 h,
    parse_args w (List.app pre rest) c0 h
    = bind (parse_args w pre c0) (fun c' => parse_args w rest c') h.
Proof.
  induction pre as [| x | x y l IH] using pairs_ind; intros Hev c0 h.
  - reflexivity.
  - discriminate.
  - simpl in Hev. specialize (IH Hev).
    change (parse_args w (List.app (x :: y :: l) rest) c0 h)
      with (bind (parse_flag w x y c0) (fun c' => parse_args w (List.app l rest) c') h).
    change (parse_args w (x :: y :: l) c0)
      with (bind (parse_flag w x y c0) (fun c' => parse_args w l c')).
    unfold bind.
    destruct (parse_flag w x y c0 h) as [h1 [c1|st|e]]; try reflexivity.
    apply IH.
Qed.

(** The flags after the last occurrence leave its setting alone. *)
Lemma parse_args_keeps w flag post :
  ~ In flag (flags_of post) ->
  forall c0 h h' c,
    parse_args w post c0 h = (h', Ret c) -> setting flag c = setting flag c0.
Proof.
  induction post as [| x | x y l IH] using pairs_ind; intros Hnot c0 h h' c H.
  - injection H as <- <-. reflexivity.
  - unfold parse_args, bind, print, emit, error, sys_exit in H. discriminate.
  - simpl in Hnot.
    change (parse_args w (x :: y :: l) c0 h)
      with (bind (parse_flag w x y c0) (fun c' => parse_args w l c') h) in H.
    apply bind_ret_inv in H. destruct H as [c1 [h1 [Hf Hr]]].
    rewrite (IH (fun Hin => Hnot (or_intror Hin)) _ _ _ _ Hr).
    apply (parse_flag_other w x y c0 h h1 c1 flag Hf).
    intros ->. apply Hnot. now left.
Qed.

(** C10.  The option loop reads the pairs from left to right and the
    last occurrence of a flag decides: when a command line is accepted
    by the loop, what a flag set is what its last occurrence alone would
    have set, whatever came before.  In particular a later [-a yes] or
    [-a no] clears the msix flag that [-a msix] had set, and [-y no]
    after [-y yes] makes the combination with [-u yes] pass the checks,
    which turn down [-y yes -u yes] alone. *)
Theorem last_occurrence_wins (w : World) :
  (forall pre flag value post c tr,
      Nat.even (List.length pre) = true ->
      ~ In flag (flags_of post) ->
      parse_args w (List.app pre (flag :: value :: post)) (defaults w) [] = (tr, Ret c) ->
      forall c0, exists c1,
          parse_flag w flag value c0 [] = ([], Ret c1)
          /\ setting flag c = setting flag c1)
  /\ (forall pre mid post value c tr,
      Nat.even (List.length pre) = true ->
      Nat.even (List.length mid) = true ->
      ~ In "-a" (flags_of post) ->
      In value ["yes"; "no"] ->
      parse_args w (List.app pre ("-a" :: "msix" :: List.app mid ("-a" :: value :: post)))
                 (defaults w) [] = (tr, Ret c) ->
      msixflag c = false /\ adminflag c = (value =? "yes"))
  /\ (exists tr st, validate w ["-y"; "yes"; "-u"; "yes"] [] = (tr, Exit st))
  /\ (exists c, validate w ["-y"; "yes"; "-u"; "yes"; "-y"; "no"] [] = ([], Ret c)
                /\ pythonflag c = false /\ guiflag c = true).
Proof.
  assert (Hgen : forall pre flag value post c tr,
      Nat.even (List.length pre) = true ->
      ~ In flag (flags_of post) ->
      parse_args w (List.app pre (flag :: value :: post)) (defaults w) [] = (tr, Ret c) ->
      forall c0, exists c1,
          parse_flag w flag value c0 [] = ([], Ret c1)
          /\ setting flag c = setting flag c1).
  { intros pre flag value post c tr Hev Hnot H c0.
    rewrite (parse_args_app w pre (flag :: value :: post) Hev) in H.
    apply bind_ret_inv in H. destruct H as [c' [h1 [Hpre H]]].
    change (parse_args w (flag :: value :: post) c' h1)
      with (bind (parse_flag w flag value c') (fun c2 => parse_args w post c2) h1) in H.
    apply bind_ret_inv in H. destruct H as [c2 [h2 [Hf Hpost]]].
    destruct (parse_flag_own _ _ _ _ _ _ _ Hf) as [-> Hown].
    destruct (Hown c0 []) as [c1 [Hc1 Hset]].
    exists c1. split; [exact Hc1|].
    rewrite (parse_args_keeps w flag post Hnot _ _ _ _ Hpost). exact Hset. }
  split; [exact Hgen|]. split; [|split].
  - intros pre mid post value c tr Hpre Hmid Hnot Hval H.
    assert (Hev : Nat.even (List.length (List.app pre ("-a" :: "msix" :: mid))) = true).
    { rewrite length_app. simpl. rewrite Nat.even_add. rewrite Hpre. simpl.
      rewrite Hmid. reflexivity. }
    replace (List.app pre ("-a" :: "msix" :: List.app mid ("-a" :: value :: post)))
      with (List.app (List.app pre ("-a" :: "msix" :: mid)) ("-a" :: value :: post)) in H
      by (rewrite <- app_assoc; reflexivity).
    destruct (Hgen _ _ _ _ _ _ Hev Hnot H (defaults w)) as [c1 [Hc1 Hset]].
    simpl in Hval. destruct Hval as [<-|[<-|[]]];
      injection Hc1 as <-; simpl in Hset; injection Hset as Ha Hm; auto.
  - eexists; eexists; reflexivity.
  - eexists. split; [reflexivity | split; reflexivity].
Qed.

Lemma last_occurrence_wins_witness :
  (exists c1, parse_flag Sample.world "-p" "ms" (defaults Sample.world) [] = ([], Ret c1)
              /\ setting "-p" c1 = [PStr "ms"])
  /\ exists c,
      parse_args Sample.world ["-a"; "msix"; "-j"; "2"; "-a"; "no"; "-v"; "yes"]
                 (defaults Sample.world) [] = ([], Ret c)
      /\ msixflag c = false /\ adminflag c = false.
Proof.
  split.
  - destruct (proj1 (last_occurrence_wins Sample.world)
                ["-p"; "mpi"; "-b"; "32"] "-p" "ms" ["-t"; "no"]
                _ _ eq_refl ltac:(simpl; intuition discriminate) eq_refl
                (defaults Sample.world)) as [c1 [H1 H2]].
    exists c1. split; [exact H1 | symmetry; exact H2].
  - eexists. split; [reflexivity|].
    eapply (proj1 (proj2 (last_occurrence_wins Sample.world))
              [] ["-j"; "2"] ["-v"; "yes"] "no" _ [] eq_refl eq_refl
              ltac:(simpl; intuition discriminate) ltac:(simpl; tauto)).
    reflexivity.
Defined.

(** The msix flag never comes with admin installation. *)
Lemma parse_flag_msix w flag value c h h' c' :
  parse_flag w flag value c h = (h', Ret c') ->
  (msixflag c = true -> adminflag c = false) ->
  (msixflag c' = true -> adminflag c' = false)
  /\ (msixflag c' = true ->
      msixflag c = true \/ (flag = "-a" /\ (value = "msix" \/ value = "MSIX"))).
Proof.
  intros H Hinv. flag_cases H;
    try (injection H as <- <-; simpl; tauto);
    try (getbool_inv H; simpl; tauto).
  - destruct (py_int w value); [|discriminate]. injection H as <- <-. simpl. tauto.
  - destruct (mem value ["msix"; "MSIX"]) eqn:E.
    + injection H as <- <-. simpl. split; [reflexivity|]. intros _. right.
      split; [reflexivity|]. apply mem_In in E. simpl in E. intuition.
    + getbool_inv H. simpl. split; discriminate.
  - destruct (fullpath_error w value); [discriminate|].
    injection H as <- <-. simpl. tauto.
  - unfold bind, print, emit, error, sys_exit in H. discriminate.
Qed.

Lemma parse_args_msix w args :
  forall c0 h h' c,
    parse_args w args c0 h = (h', Ret c) ->
    (msixflag c0 = true -> adminflag c0 = false) ->
    (msixflag c = true -> adminflag c = false)
    /\ (msixflag c = true ->
        msixflag c0 = true
        \/ In ("-a", "msix") (pairs_of args) \/ In ("-a", "MSIX") (pairs_of args)).
Proof.
  induction args as [| x | x y l IH] using pairs_ind; intros c0 h h' c H Hinv.
  - injection H as <- <-. tauto.
  - unfold parse_args, bind, print, emit, error, sys_exit in H. discriminate.
  - change (parse_args w (x :: y :: l) c0 h)
      with (bind (parse_flag w x y c0) (fun c' => parse_args w l c') h) in H.
    apply bind_ret_inv in H. destruct H as [c1 [h1 [Hf Hr]]].
    destruct (parse_flag_msix _ _ _ _ _ _ _ Hf Hinv) as [Hinv1 Hsrc1].
    destruct (IH _ _ _ _ Hr Hinv1) as [Hinv2 Hsrc2].
    split; [exact Hinv2|]. intros Hm.
    destruct (Hsrc2 Hm) as [Hm1|[Hin|Hin]].
    + destruct (Hsrc1 Hm1) as [Hm0|[-> [->| ->]]]; simpl; auto.
    + simpl; auto.
    + simpl; auto.
Qed.

(** C3 (as the code has it).  [-a msix] clears the admin flag and sets
    the msix flag at once, and the msix flag is only ever set through
    the flag [-a] with the value msix or MSIX: when the loop ends with
    it set, such a pair is on the command line and the admin flag is
    clear. *)
Theorem msix_only_through_a (w : World) :
  (exists c, parse_args w ["-a"; "msix"] (defaults w) [] = ([], Ret c)
             /\ adminflag c = false /\ msixflag c = true)
  /\ forall args c tr,
      parse_args w args (defaults w) [] = (tr, Ret c) ->
      msixflag c = true ->
      adminflag c = false
      /\ (In ("-a", "msix") (pairs_of args) \/ In ("-a", "MSIX") (pairs_of args)).
Proof.
  split.
  - eexists. split; [reflexivity | split; reflexivity].
  - intros args c tr H Hm.
    destruct (parse_args_msix w args _ _ _ _ H) as [Hinv Hsrc]; [discriminate|].
    split; [auto|].
    destruct (Hsrc Hm) as [H0|H1]; [discriminate | exact H1].
Qed.

Lemma msix_only_through_a_witness :
  exists c,
    parse_args Sample.world ["-b"; "32"; "-a"; "msix"; "-y"; "no"]
               (defaults Sample.world) [] = ([], Ret c)
    /\ msixflag c = true
    /\ adminflag c = false.
Proof.
  eexists. split; [reflexivity|]. split; [reflexivity|].
  eapply (proj2 (msix_only_through_a Sample.world)
            ["-b"; "32"; "-a"; "msix"; "-y"; "no"]); reflexivity.
Defined.

(** C3 as stated fails: the value MSIX sets the msix flag as well, on a
    command line where the value msix does not occur. *)
Lemma msix_in_capitals :
  exists c,
    parse_args Sample.world ["-a"; "MSIX"] (defaults Sample.world) [] = ([], Ret c)
    /\ msixflag c = true
    /\ ~ In ("-a", "msix") (pairs_of ["-a"; "MSIX"]).
Proof.
  eexists. split; [reflexivity|]. split; [reflexivity|].
  simpl. intuition discriminate.
Qed.

End Options.

(** ** The build of LAMMPS itself *)

Module Build.
Import Py Re Script Spec StrFacts ParseFacts Options.

Lemma build_ignores_numcpus w c n : build w (set_numcpus n c) = build w c.
Proof. reflexivity. Qed.

Lemma checks_ignore_numcpus w c n :
  checks w (set_numcpus n c) = checks w c
  /\ check_revision w (set_numcpus n c) = check_revision w c.
Proof. split; reflexivity. Qed.

(** C9.  The build of LAMMPS is started with [--parallel 8], whatever
    the configuration and the environment: the stage prints its
    heading, runs exactly that one command and nothing in it reads the
    number of CPUs.  The whole build does not read it either, so a
    [-j] at the end of a command line changes nothing in the run. *)
Theorem main_build_parallelism (w : World) :
  (forall c h, exists rest o,
      compile_main w c h
      = (List.app h (Stdout (print_text ["Compiling"])
                     :: Shell "cmake --build . --parallel 8" :: rest), o)
      /\ shell_commands rest = [])
  /\ (forall c n, build w (set_numcpus n c) = build w c)
  /\ (forall args value n,
      Nat.even (List.length args) = true ->
      py_int w value = Some n ->
      run w (List.app args ["-j"; value]) = run w args).
Proof.
  split; [|split].
  - intros c h. unfold compile_main, system, bind, print, emit, fs.
    destruct (raises w _ (Shell "cmake --build . --parallel 8")) as [exn|].
    { eexists; eexists. split; [rewrite <- !app_assoc; simpl; reflexivity | reflexivity]. }
    destruct (shell w _ "cmake --build . --parallel 8") as [[|] txt] eqn:E;
      unfold decode, bind; destruct (utf8 txt); unfold ret, raise.
    + eexists; eexists. split; [rewrite <- !app_assoc; simpl; reflexivity | reflexivity].
    + eexists; eexists. split; [rewrite <- !app_assoc; simpl; reflexivity | reflexivity].
    + unfold error, bind, print, emit, sys_exit.
      destruct txt as [|a txt]; eexists; eexists; (split;
        [rewrite <- !app_assoc; simpl; reflexivity | reflexivity]).
    + eexists; eexists. split; [rewrite <- !app_assoc; simpl; reflexivity | reflexivity].
  - intros c n. apply build_ignores_numcpus.
  - intros args value n Hev Hint.
    unfold run, script, validate, bind.
    rewrite (parse_args_app w args ["-j"; value] Hev). unfold bind.
    destruct (parse_args w args (defaults w) []) as [h1 [c1|st|e]]; try reflexivity.
    cbn [parse_args]. unfold parse_flag. simpl (String.eqb _ _). cbv beta iota.
    rewrite Hint. unfold bind, ret.
    change (checks w _ h1) with (checks w c1 h1).
    destruct (checks w c1 h1) as [h2 [[]|st|e]]; try reflexivity.
    change (check_revision w _ h2) with (check_revision w c1 h2).
    destruct (check_revision w c1 h2) as [h3 [[]|st|e]]; try reflexivity.
Qed.

Lemma main_build_parallelism_witness :
  run Sample.world ["-p"; "mpi"; "-j"; "16"] = run Sample.world ["-p"; "mpi"].
Proof.
  apply (proj2 (proj2 (main_build_parallelism Sample.world)) ["-p"; "mpi"] "16" 16%Z);
    reflexivity.
Defined.

End Build.

(** ** Texts and their characters *)

Module Utf8.
Import Py Re StrFacts.
Local Open Scope list_scope.

Lemma second_continuation b0 b1 : second b0 b1 = true -> continuation b1 = true.
Proof.
  unfold second, continuation, between.
  destruct (Nat.eqb (byte b0) 224); [|destruct (Nat.eqb (byte b0) 237);
    [|destruct (Nat.eqb (byte b0) 240); [|destruct (Nat.eqb (byte b0) 244)]]];
    intros H; try assumption;
    apply andb_true_iff in H; destruct H as [H1 H2];
    apply Nat.leb_le in H1; apply Nat.leb_le in H2;
    apply andb_true_iff; split; apply Nat.leb_le; lia.
Qed.

Lemma continuation_not_ascii b : continuation b = true -> is_ascii b = false.
Proof.
  unfold continuation, is_ascii, between. intros H.
  apply andb_true_iff in H. destruct H as [H1 _]. apply Nat.leb_le in H1.
  apply andb_false_iff. right. apply Nat.leb_gt. lia.
Qed.

Lemma lead_ascii b : is_ascii b = true -> lead b = 1.
Proof. unfold lead. now intros ->. Qed.

Lemma lead_not_ascii b : 2 <= lead b -> is_ascii b = false.
Proof. unfold lead. destruct (is_ascii b); [lia | reflexivity]. Qed.

Lemma uchars_ascii c r : is_ascii c = true -> uchars (String c r) = char1 c :: uchars r.
Proof. intros H. cbn [uchars]. rewrite (lead_ascii c H). reflexivity. Qed.

(** The first character of a text and what follows it. *)
Lemma uchars_step b0 r1 :
  exists ch rest,
    uchars (String b0 r1) = ch :: uchars rest
    /\ String b0 r1 = (ch ++ rest)%string
    /\ (ch = char1 b0 \/ multibyte ch = true)
    /\ String.length rest <= String.length r1.
Proof.
  assert (D : exists ch rest, ch = char1 b0 /\ rest = r1
              /\ char1 b0 :: uchars r1 = ch :: uchars rest
              /\ String b0 r1 = (ch ++ rest)%string
              /\ (ch = char1 b0 \/ multibyte ch = true)
              /\ String.length rest <= String.length r1).
  { exists (char1 b0), r1. repeat split; auto. }
  destruct D as [ch0 [rest0 [_ [_ D]]]].
  cbn [uchars].
  destruct (lead b0) as [|[|[|[|[|k]]]]] eqn:L;
    try (exists ch0, rest0; exact D).
  - destruct r1 as [|b1 r2]; [exists ch0, rest0; exact D|].
    destruct (second b0 b1) eqn:S2; [|exists ch0, rest0; exact D].
    exists (char2 b0 b1), r2. repeat split; auto.
    + right. simpl. rewrite L, S2. reflexivity.
    + simpl. lia.
  - destruct r1 as [|b1 [|b2 r3]]; try (exists ch0, rest0; exact D).
    destruct (second b0 b1 && continuation b2)%bool eqn:S2;
      [|exists ch0, rest0; exact D].
    exists (char3 b0 b1 b2), r3. repeat split; auto.
    + right. simpl. rewrite L. simpl. exact S2.
    + simpl. lia.
  - destruct r1 as [|b1 [|b2 [|b3 r4]]]; try (exists ch0, rest0; exact D).
    destruct (second b0 b1 && continuation b2 && continuation b3)%bool eqn:S2;
      [|exists ch0, rest0; exact D].
    exists (char4 b0 b1 b2 b3), r4. repeat split; auto.
    + right. simpl. rewrite L. simpl. exact S2.
    + simpl. lia.
Qed.

(** Induction on a text, one character at a time. *)
Lemma uchars_ind (P : string -> list uchar -> Prop) :
  P "" [] ->
  (forall b0 ch rest,
      (ch = char1 b0 \/ multibyte ch = true) ->
      (exists tl, ch = String b0 tl) ->
      P rest (uchars rest) -> P (ch ++ rest)%string (ch :: uchars rest)) ->
  forall s, P s (uchars s).
Proof.
  intros H0 Hs s.
  assert (G : forall n s, String.length s <= n -> P s (uchars s)).
  { induction n as [|n IH]; intros [|b0 r1] Hn; simpl in Hn; try exact H0; try lia.
    destruct (uchars_step b0 r1) as [ch [rest [E1 [E2 [Hch Hlen]]]]].
    rewrite E1, E2. apply (Hs b0).
    - exact Hch.
    - destruct ch as [|c tl].
      + destruct Hch as [Hch|Hch]; discriminate.
      + simpl in E2. injection E2 as -> _. now exists tl.
    - apply IH. lia. }
  apply (G (String.length s)). lia.
Qed.

Lemma text_cons ch l : text (ch :: l) = (ch ++ text l)%string.
Proof.
  unfold text. destruct l as [|x l]; cbn [String.concat].
  - now rewrite append_nil_r.
  - reflexivity.
Qed.

Lemma text_app l1 l2 : text (l1 ++ l2) = (text l1 ++ text l2)%string.
Proof.
  induction l1 as [|ch l1 IH].
  - reflexivity.
  - rewrite <- app_comm_cons, !text_cons, IH, append_assoc. reflexivity.
Qed.

(** Cutting a text into characters loses nothing. *)
Lemma text_uchars s : text (uchars s) = s.
Proof.
  apply (uchars_ind (fun s l => text l = s)).
  - reflexivity.
  - intros b0 ch rest _ _ IH. rewrite text_cons, IH. reflexivity.
Qed.

Lemma uchars_nil s : uchars s = [] -> s = "".
Proof. intros H. rewrite <- (text_uchars s), H. reflexivity. Qed.

(** What [uchars] produces: single bytes and complete sequences. *)
Lemma uchars_units s : Forall unit_char (uchars s).
Proof.
  apply (uchars_ind (fun _ l => Forall unit_char l)).
  - constructor.
  - intros b0 ch rest Hch _ IH. constructor; [|exact IH].
    destruct Hch as [->|Hch]; [left; now exists b0 | now right].
Qed.

(** A complete sequence is a character wherever it stands. *)
Lemma uchars_multibyte ch r :
  multibyte ch = true -> uchars (ch ++ r) = ch :: uchars r.
Proof.
  destruct ch as [|b0 [|b1 [|b2 [|b3 [|b4 ch]]]]]; simpl multibyte;
    try discriminate; intros H.
  - apply andb_true_iff in H. destruct H as [L S2]. apply Nat.eqb_eq in L.
    cbn [append uchars]. rewrite L, S2. reflexivity.
  - apply andb_true_iff in H. destruct H as [H S3].
    apply andb_true_iff in H. destruct H as [L S2]. apply Nat.eqb_eq in L.
    cbn [append uchars]. rewrite L, S2, S3. reflexivity.
  - apply andb_true_iff in H. destruct H as [H S4].
    apply andb_true_iff in H. destruct H as [H S3].
    apply andb_true_iff in H. destruct H as [L S2]. apply Nat.eqb_eq in L.
    cbn [append uchars]. rewrite L, S2, S3, S4. reflexivity.
Qed.

Lemma multibyte_not_ascii ch :
  multibyte ch = true -> forallb (fun b => negb (is_ascii b)) (chars ch) = true.
Proof.
  assert (A : forall b, continuation b = true -> negb (is_ascii b) = true).
  { intros b H. now rewrite (continuation_not_ascii b H). }
  assert (B : forall b n, Nat.eqb (lead b) (S (S n)) = true -> negb (is_ascii b) = true).
  { intros b n H. apply Nat.eqb_eq in H. rewrite (lead_not_ascii b); [reflexivity | lia]. }
  destruct ch as [|b0 [|b1 [|b2 [|b3 [|b4 ch]]]]]; simpl multibyte;
    try discriminate; intros H;
    repeat (apply andb_true_iff in H; let H' := fresh in destruct H as [H H']);
    unfold chars; simpl;
    repeat match goal with
           | X : second _ _ = true |- _ => apply second_continuation in X
           end;
    repeat (apply andb_true_iff; split); eauto.
Qed.

(** A character a decoder accepts is a character wherever it stands. *)
Lemma uchars_decodable ch r :
  decodable ch = true -> uchars (ch ++ r) = ch :: uchars r.
Proof.
  intros H. destruct ch as [|b [|b1 tl]].
  - discriminate.
  - simpl in H. apply (uchars_ascii b r H).
  - apply uchars_multibyte. exact H.
Qed.

Lemma uchars_text l r :
  forallb decodable l = true -> uchars (text l ++ r) = l ++ uchars r.
Proof.
  induction l as [|ch l IH]; intros H.
  - reflexivity.
  - simpl in H. apply andb_true_iff in H. destruct H as [H1 H2].
    rewrite text_cons, append_assoc, (uchars_decodable ch _ H1), (IH H2).
    reflexivity.
Qed.

Lemma uchars_text_id l : forallb decodable l = true -> uchars (text l) = l.
Proof.
  intros H. rewrite <- (append_nil_r (text l)), (uchars_text l "" H).
  apply app_nil_r.
Qed.

(** Characters do not reach across a byte that cannot continue a
    sequence: there a text can be cut. *)
Lemma uchars_app a b : clean b -> uchars (a ++ b) = uchars a ++ uchars b.
Proof.
  intros Hc. destruct b as [|c r].
  { rewrite append_nil_r. simpl. now rewrite app_nil_r. }
  simpl in Hc.
  assert (C : forall b0, second b0 c = false).
  { intros b0. destruct (second b0 c) eqn:E; [|reflexivity].
    apply second_continuation in E. congruence. }
  assert (G : forall n a, String.length a <= n ->
                          uchars (a ++ String c r) = uchars a ++ uchars (String c r)).
  { clear a. induction n as [|n IH]; intros [|b0 a1] Hn; simpl in Hn;
      try reflexivity; try lia.
    assert (I1 : uchars (a1 ++ String c r) = uchars a1 ++ uchars (String c r))
      by (apply IH; lia).
    cbn [append uchars].
    destruct (lead b0) as [|[|[|[|[|k]]]]] eqn:L;
      try (rewrite I1; reflexivity).
    - destruct a1 as [|b1 a2].
      + cbn [append]. rewrite (C b0). reflexivity.
      + cbn [append]. destruct (second b0 b1).
        * rewrite IH by (simpl in Hn; lia). reflexivity.
        * cbn [append] in I1. rewrite I1. reflexivity.
    - destruct a1 as [|b1 [|b2 a3]].
      + cbn [append]. destruct r; [reflexivity | rewrite (C b0); reflexivity].
      + cbn [append] in *. rewrite Hc, andb_false_r, I1. reflexivity.
      + cbn [append] in *. destruct (second b0 b1 && continuation b2)%bool.
        * rewrite IH by (simpl in Hn; lia). reflexivity.
        * rewrite I1. reflexivity.
    - destruct a1 as [|b1 [|b2 [|b3 a4]]].
      + cbn [append]. destruct r as [|c2 [|c3 r]]; try reflexivity.
        rewrite (C b0). reflexivity.
      + cbn [append] in *. destruct r as [|c2 r]; try (rewrite I1; reflexivity).
        rewrite Hc, andb_false_r. cbn [andb]. rewrite I1. reflexivity.
      + cbn [append] in *. rewrite Hc, andb_false_r, I1. reflexivity.
      + cbn [append] in *.
        destruct (second b0 b1 && continuation b2 && continuation b3)%bool.
        * rewrite IH by (simpl in Hn; lia). reflexivity.
        * rewrite I1. reflexivity. }
  apply (G (String.length a)). lia.
Qed.

(** A text of ASCII bytes has one character for each byte. *)
Lemma uchars_all_ascii s :
  forallb is_ascii (chars s) = true -> uchars s = map char1 (chars s).
Proof.
  unfold chars. induction s as [|c s IH]; intros H.
  - reflexivity.
  - simpl in H. apply andb_true_iff in H. destruct H as [H1 H2].
    rewrite (uchars_ascii c s H1), (IH H2). reflexivity.
Qed.

(** The bytes of a text are those of its characters. *)
Lemma chars_text l : chars (text l) = flat_map chars l.
Proof.
  induction l as [|ch l IH].
  - reflexivity.
  - rewrite text_cons, chars_app, IH. reflexivity.
Qed.


(** An ASCII byte is in a text exactly as a character of its own. *)
Lemma unit_char_has c ch :
  is_ascii c = true -> unit_char ch ->
  existsb (Ascii.eqb c) (chars ch) = String.eqb (char1 c) ch.
Proof.
  intros Hc [[b ->]|Hm].
  - destruct (Ascii.eqb_spec c b) as [->|Hne].
    + rewrite String.eqb_refl. unfold char1, chars. simpl.
      now rewrite Ascii.eqb_refl.
    + assert (E : String.eqb (char1 c) (char1 b) = false)
        by (apply String.eqb_neq; unfold char1; congruence).
      rewrite E. apply Ascii.eqb_neq in Hne.
      unfold char1, chars. simpl. now rewrite Hne.
  - assert (N := multibyte_not_ascii ch Hm).
    assert (E1 : existsb (Ascii.eqb c) (chars ch) = false).
    { destruct (existsb (Ascii.eqb c) (chars ch)) eqn:E; [|reflexivity].
      apply existsb_exists in E. destruct E as [x [Hin Hx]].
      apply Ascii.eqb_eq in Hx. subst x.
      rewrite forallb_forall in N. specialize (N c Hin).
      rewrite Hc in N. discriminate. }
    rewrite E1. symmetry. apply String.eqb_neq. intros <-.
    discriminate.
Qed.

Lemma ascii_in_units c l :
  is_ascii c = true -> Forall unit_char l ->
  existsb (Ascii.eqb c) (flat_map chars l) = existsb (String.eqb (char1 c)) l.
Proof.
  intros Hc. induction 1 as [|ch l Hch _ IH].
  - reflexivity.
  - cbn [flat_map existsb]. rewrite existsb_app, IH, (unit_char_has c ch Hc Hch).
    reflexivity.
Qed.


(** A text none of whose characters is some ASCII byte does not hold
    that byte. *)
Lemma no_char_text c l :
  is_ascii c = true -> Forall unit_char l ->
  (forall ch, In ch l -> ch <> char1 c) ->
  forallb (fun d => negb (Ascii.eqb d c)) (chars (text l)) = true.
Proof.
  intros Hc Hu H. apply forallb_forall. intros d Hin.
  destruct (Ascii.eqb_spec d c) as [->|]; [|reflexivity]. exfalso.
  assert (E : existsb (Ascii.eqb c) (chars (text l)) = true).
  { apply existsb_exists. exists c. split; [exact Hin | apply Ascii.eqb_refl]. }
  rewrite chars_text, (ascii_in_units c l Hc Hu) in E. apply existsb_exists in E.
  destruct E as [ch [Hch Heq]]. apply String.eqb_eq in Heq. subst ch.
  exact (H _ Hch eq_refl).
Qed.

Lemma no_char_of_letters c s :
  is_ascii c = true -> (forall ch, In ch (uchars s) -> ch <> char1 c) ->
  forallb (fun d => negb (Ascii.eqb d c)) (chars s) = true.
Proof.
  intros Hc H. rewrite <- (text_uchars s) at 1.
  apply no_char_text; [exact Hc | apply uchars_units | exact H].
Qed.

Lemma uchars_app_decodable a b :
  forallb decodable (uchars a) = true -> uchars (a ++ b) = uchars a ++ uchars b.
Proof.
  intros H. rewrite <- (text_uchars a) at 1. apply uchars_text. exact H.
Qed.

Lemma text_chars1 bs : chars (text (map char1 bs)) = bs.
Proof.
  rewrite chars_text. induction bs as [|b bs IH]; simpl; congruence.
Qed.

(** *** Character classes *)

Lemma class_spec base db ch :
  class base db ch = true
  <-> (exists b, ch = char1 b /\ base b = true)
      \/ (multibyte ch = true /\ db ch = true).
Proof.
  unfold class, char1. destruct ch as [|b [|b1 tl]].
  - split; [discriminate|]. intros [[b [E _]]|[E _]]; discriminate.
  - split.
    + intros H. left. now exists b.
    + intros [[b' [E H]]|[E _]]; [now injection E as -> | discriminate].
  - rewrite andb_true_iff. split.
    + intros H. now right.
    + intros [[b' [E _]]|H]; [discriminate | exact H].
Qed.

Lemma class_decodable base db ch :
  (forall b, base b = true -> is_ascii b = true) ->
  class base db ch = true -> decodable ch = true.
Proof.
  intros Hb H. apply class_spec in H. destruct H as [[b [-> H]]|[H _]].
  - simpl. now apply Hb.
  - destruct ch as [|b [|b1 tl]]; try discriminate. exact H.
Qed.

Lemma forallb_class_decodable base db l :
  (forall b, base b = true -> is_ascii b = true) ->
  forallb (class base db) l = true -> forallb decodable l = true.
Proof.
  intros Hb H. rewrite forallb_forall in *. intros ch Hin.
  apply (class_decodable base db ch Hb). now apply H.
Qed.

Lemma in_range_ascii lo hi c :
  nat_of_ascii hi <= 127 -> in_range lo hi c = true -> is_ascii c = true.
Proof.
  unfold in_range, is_ascii, between, byte. intros Hhi H.
  apply andb_true_iff in H. destruct H as [_ H]. apply Nat.leb_le in H.
  apply andb_true_iff. split; apply Nat.leb_le; lia.
Qed.

Lemma ascii_digit_ascii b : ascii_digit b = true -> is_ascii b = true.
Proof. apply in_range_ascii. vm_compute. lia. Qed.

Lemma ascii_hexlower_ascii b : ascii_hexlower b = true -> is_ascii b = true.
Proof.
  unfold ascii_hexlower. intros H. apply orb_true_iff in H.
  destruct H as [H|H]; revert H; apply in_range_ascii; vm_compute; lia.
Qed.

Lemma ascii_word_ascii b : ascii_word b = true -> is_ascii b = true.
Proof.
  unfold ascii_word. intros H.
  repeat (apply orb_true_iff in H; destruct H as [H|H]).
  - revert H. apply in_range_ascii. vm_compute. lia.
  - revert H. apply in_range_ascii. vm_compute. lia.
  - now apply ascii_digit_ascii.
  - apply Ascii.eqb_eq in H. now subst.
Qed.

End Utf8.

(** ** The matcher against what a pattern denotes *)
Module ReFacts.
Import Py Re StrFacts Utf8.
Local Open Scope list_scope.

Lemma strip_prefix_spec (w s s' : list uchar) :
  strip_prefix w s = Some s' <-> s = w ++ s'.
Proof.
  revert s. induction w as [|a w IH]; intros s; simpl.
  - split; congruence.
  - destruct s as [|b s]; [split; discriminate|].
    destruct (String.eqb_spec a b) as [->|Hne].
    + rewrite IH. split; congruence.
    + split; [discriminate | congruence].
Qed.

Lemma many_sound p s : forall lo hi pos caps (k : cont) res,
  many p lo hi pos s caps k = Some res ->
  exists u v, s = u ++ v /\ lo <= length u /\ within hi (length u)
              /\ forallb p u = true /\ k (pos + length u) v caps = Some res.
Proof.
  assert (Hstop : forall lo hi pos s0 caps (k : cont) res,
             (if Nat.eqb lo 0 then k pos s0 caps else None) = Some res ->
             exists u v, s0 = u ++ v /\ lo <= length u /\ within hi (length u)
                         /\ forallb p u = true /\ k (pos + length u) v caps = Some res).
  { intros lo hi pos s0 caps k res H.
    destruct (Nat.eqb_spec lo 0) as [->|]; [|discriminate].
    exists [], s0. simpl. rewrite Nat.add_0_r.
    repeat split; auto. destruct hi; simpl; lia. }
  induction s as [|c s IH]; intros lo hi pos caps k res H; simpl in H.
  - now apply Hstop.
  - destruct (p c) eqn:Ep; simpl in H; [|now apply Hstop].
    destruct (can_more hi) eqn:Eh; [|now apply Hstop].
    destruct (many p (pred lo) (option_map pred hi) (S pos) s caps k) as [r|] eqn:Er;
      [|now apply Hstop].
    injection H as ->.
    destruct (IH _ _ _ _ _ _ Er) as [u [v [-> [Hlo [Hhi [Hp Hk]]]]]].
    exists (c :: u), v. simpl. rewrite Ep, Hp.
    rewrite Nat.add_succ_r. repeat split; auto; try lia.
    destruct hi as [[|h]|]; simpl in *; try discriminate; lia.
Qed.

Lemma many_complete p u : forall v lo hi pos caps (k : cont),
  lo <= length u -> within hi (length u) -> forallb p u = true ->
  k (pos + length u) v caps <> None ->
  many p lo hi pos (u ++ v) caps k <> None.
Proof.
  induction u as [|c u IH]; intros v lo hi pos caps k Hlo Hhi Hp Hk.
  - simpl in *. rewrite Nat.add_0_r in Hk.
    assert (lo = 0) as -> by lia.
    destruct v as [|c v]; simpl; [exact Hk|].
    destruct (p c && can_more hi)%bool; [|exact Hk].
    destruct (many p 0 (option_map pred hi) (S pos) v caps k); [discriminate | exact Hk].
  - simpl in Hp. apply andb_true_iff in Hp. destruct Hp as [Hc Hp].
    simpl. rewrite Hc.
    assert (can_more hi = true) as ->.
    { destruct hi as [[|h]|]; simpl in *; auto; lia. }
    simpl.
    assert (Hrec : many p (pred lo) (option_map pred hi) (S pos) (u ++ v) caps k <> None).
    { apply IH; auto.
      - simpl in Hlo. lia.
      - destruct hi as [h|]; simpl in *; auto; lia.
      - simpl in Hk. now rewrite Nat.add_succ_r in Hk. }
    destruct (many p (pred lo) (option_map pred hi) (S pos) (u ++ v) caps k);
      [discriminate | contradiction].
Qed.

(** Whatever the matcher finds, the pattern denotes. *)
Lemma exec_sound r : forall pos s caps (k : cont) res,
  exec r pos s caps k = Some res ->
  exists u v caps', s = u ++ v /\ den r pos u v
                    /\ k (pos + length u) v caps' = Some res.
Proof.
  induction r as [| |w|r1 IH1 r2 IH2|r1 IH1 r2 IH2|p lo hi|r IH];
    intros pos s caps k res H; simpl in H.
  - destruct (Nat.eqb_spec pos 0) as [->|]; [|discriminate].
    exists [], s, caps. simpl. auto.
  - destruct s as [|c [|d s]]; try discriminate.
    + exists [], [], caps. simpl. rewrite Nat.add_0_r. auto.
    + destruct (String.eqb_spec c nl) as [->|]; [|discriminate].
      exists [], [nl], caps. simpl. rewrite Nat.add_0_r. auto.
  - destruct (strip_prefix (uchars w) s) as [s'|] eqn:E; [|discriminate].
    apply strip_prefix_spec in E. exists (uchars w), s', caps. simpl. auto.
  - destruct (IH1 _ _ _ _ _ H) as [u1 [v1 [caps1 [-> [H1 H2]]]]].
    destruct (IH2 _ _ _ _ _ H2) as [u2 [v [caps2 [-> [H3 H4]]]]].
    exists (u1 ++ u2), v, caps2. rewrite length_app, Nat.add_assoc, <- app_assoc.
    repeat split; auto. simpl. exists u1, u2. auto.
  - destruct (exec r1 pos s caps k) as [res1|] eqn:E1.
    + injection H as ->.
      destruct (IH1 _ _ _ _ _ E1) as [u [v [caps' [-> [H1 H2]]]]].
      exists u, v, caps'. simpl. auto.
    + destruct (IH2 _ _ _ _ _ H) as [u [v [caps' [-> [H1 H2]]]]].
      exists u, v, caps'. simpl. auto.
  - destruct (many_sound _ _ _ _ _ _ _ _ H) as [u [v [-> [Hlo [Hhi [Hp Hk]]]]]].
    exists u, v, caps. simpl. auto.
  - destruct (IH _ _ _ _ _ H) as [u [v [caps' [-> [H1 H2]]]]].
    eexists u, v, _. simpl. repeat split; eauto.
Qed.

(** Whatever the pattern denotes, the matcher finds some match. *)
Lemma exec_complete r : forall pos u v caps caps' (k : cont),
  blind k -> den r pos u v -> k (pos + length u) v caps' <> None ->
  exec r pos (u ++ v) caps k <> None.
Proof.
  induction r as [| |w|r1 IH1 r2 IH2|r1 IH1 r2 IH2|p lo hi|r IH];
    intros pos u v caps caps' k Hb Hd Hk; simpl in Hd |- *.
  - destruct Hd as [-> ->]. simpl in *. eapply Hb; eauto.
  - destruct Hd as [-> [->| ->]]; simpl in *; rewrite Nat.add_0_r in Hk;
      eapply Hb; eauto.
  - subst u.
    assert (E : strip_prefix (uchars w) (uchars w ++ v) = Some v)
      by now apply strip_prefix_spec.
    rewrite E. eapply Hb; eauto.
  - destruct Hd as [u1 [u2 [-> [H1 H2]]]]. rewrite <- app_assoc.
    apply (IH1 pos u1 (u2 ++ v) caps caps); auto.
    + intros pos' s' c1 c2 Hs.
      destruct (exec r2 pos' s' c1 k) as [res|] eqn:E; [|contradiction].
      destruct (exec_sound _ _ _ _ _ _ E) as [a [b [c3 [-> [Ha Hkk]]]]].
      apply (IH2 pos' a b c2 c3); auto. congruence.
    + apply (IH2 _ u2 v caps caps'); auto.
      now rewrite length_app, Nat.add_assoc in Hk.
  - destruct (exec r1 pos (u ++ v) caps k) eqn:E1; [discriminate|].
    destruct Hd as [Hd|Hd].
    + exfalso. revert E1. apply (IH1 pos u v caps caps'); auto.
    + apply (IH2 pos u v caps caps'); auto.
  - destruct Hd as [Hlo [Hhi Hp]].
    apply many_complete; auto. eapply Hb; eauto.
  - apply (IH pos u v caps caps'); auto.
    + intros pos' s' c1 c2. apply Hb.
    + eapply Hb; eauto.
Qed.

(** [matches] decides what the pattern denotes at the start of the text. *)
Lemma matches_den r (s : string) :
  matches r s = true <-> exists u v, uchars s = u ++ v /\ den r 0 u v.
Proof.
  unfold matches, re_match. split.
  - destruct (exec r 0 (uchars s) [] (fun _ _ caps => Some caps)) as [res|] eqn:E;
      [|discriminate].
    intros _. destruct (exec_sound _ _ _ _ _ _ E) as [u [v [caps' [Hs [Hd _]]]]].
    eauto.
  - intros [u [v [Hs Hd]]]. rewrite Hs.
    destruct (exec r 0 (u ++ v) [] (fun _ _ caps => Some caps)) eqn:E; [reflexivity|].
    exfalso. revert E.
    apply (exec_complete r 0 u v [] []); auto; try discriminate.
Qed.

End ReFacts.

(** ** Revisions *)

Module Revisions.
Import Py Re Script Spec StrFacts Utf8 ReFacts.

Ltac break :=
  repeat match goal with
         | H : exists _, _ |- _ => destruct H
         | H : _ /\ _ |- _ => destruct H
         end.

(** An alternation of literals denotes its words. *)
Lemma den_alts_lit (l : list string) : forall a pos u v,
  den (alts (Lit a) (map Lit l)) pos u v <-> exists w, In w (a :: l) /\ u = uchars w.
Proof.
  induction l as [|b l IH]; intros a pos u v; simpl.
  - split.
    + intros ->. exists a. auto.
    + intros [w [[<-|[]] ->]]. reflexivity.
  - rewrite IH. split.
    + intros [->|[w [Hin ->]]]; [exists a; auto | exists w; auto].
    + intros [w [[<-|Hin] ->]]; [now left | right; eauto].
Qed.

(** The text before the end of line. *)
Lemma line_end_intro (s : string) (u v : list uchar) :
  uchars s = (u ++ v)%list -> v = [] \/ v = [nl] ->
  s = text u \/ s = text u ++ nl.
Proof.
  intros Hs Hv. rewrite <- (text_uchars s), Hs, text_app.
  destruct Hv as [-> | ->]; [left | right].
  - apply append_nil_r.
  - reflexivity.
Qed.

Lemma line_end_elim (s s0 : string) :
  s = s0 \/ s = s0 ++ nl ->
  exists v, uchars s = (uchars s0 ++ v)%list /\ (v = [] \/ v = [nl]).
Proof.
  intros [-> | ->].
  - exists []. now rewrite app_nil_r; auto.
  - exists [nl]. rewrite uchars_app by reflexivity. auto.
Qed.

Lemma rev1_spec (s : string) :
  matches rev1 s = true
  <-> exists s0, (s = s0 \/ s = s0 ++ nl) /\ In s0 keywords.
Proof.
  rewrite matches_den. unfold rev1.
  change [Lit "release"; Lit "develop"; Lit "maintenance"]
    with (map Lit ["release"; "develop"; "maintenance"]).
  cbn [den seqs]. split.
  - intros H. break. subst.
    match goal with H : den (alts _ _) _ _ _ |- _ =>
      apply den_alts_lit in H; destruct H as [w [Hin ->]] end.
    match goal with H : uchars s = _ |- _ => simpl in H; rewrite app_nil_r in H;
      apply line_end_intro in H; [|assumption] end.
    exists w. rewrite text_uchars in *. auto.
  - intros [s0 [Hs Hin]].
    destruct (line_end_elim _ _ Hs) as [v [Hc Hv]].
    exists (uchars s0), v. split; [assumption|].
    exists [], (uchars s0). repeat split.
    exists (uchars s0), []. rewrite app_nil_r. repeat split; auto.
    apply den_alts_lit. eauto.
Qed.

(** The class [\d] of the script and the decimal digits. *)
Lemma digit_decimal w ch : digit w ch = true <-> decimal w ch.
Proof. apply class_spec. Qed.

Lemma digits_decimal w l : forallb (digit w) l = true <-> Forall (decimal w) l.
Proof.
  rewrite forallb_forall, Forall_forall.
  split; intros H ch Hin; apply digit_decimal; now apply H.
Qed.

Lemma digits_decodable w l : forallb (digit w) l = true -> forallb decodable l = true.
Proof. apply forallb_class_decodable, ascii_digit_ascii. Qed.

Lemma digits_text w l : forallb (digit w) l = true -> uchars (text l) = l.
Proof. intros H. apply uchars_text_id. now apply (digits_decodable w). Qed.

Lemma rev2_spec w (s : string) :
  matches (rev2 w) s = true
  <-> exists s0, (s = s0 \/ s = s0 ++ nl) /\ dated_tag w s0.
Proof.
  rewrite matches_den. unfold rev2, plus, times.
  change [Lit "stable"] with (map Lit ["stable"]).
  change [Lit "Feb"; Lit "Mar"; Lit "Apr"; Lit "May"; Lit "Jun"; Lit "Jul";
          Lit "Aug"; Lit "Sep"; Lit "Oct"; Lit "Nov"; Lit "Dec"]
    with (map Lit ["Feb"; "Mar"; "Apr"; "May"; "Jun"; "Jul";
                   "Aug"; "Sep"; "Oct"; "Nov"; "Dec"]).
  cbn [den seqs within]. split.
  - intros H. break. subst.
    repeat match goal with H : den (alts _ _) _ _ _ |- _ =>
      apply den_alts_lit in H; destruct H as [? [? ->]] end.
    match goal with H : uchars s = _ |- _ => simpl app in H; rewrite app_nil_r in H;
      apply line_end_intro in H; [|assumption] end.
    match goal with
    | Hk : In ?kind ["patch"; "stable"], Hm : In ?month (_ :: _),
      Hd : forallb (digit w) ?ds = true, Hy : forallb (digit w) ?ys = true,
      Hs : s = text ?all \/ _ |- _ =>
        exists (text all); split; [assumption|];
        exists kind, (text ds), month, (text ys);
        rewrite (digits_text w ds Hd), (digits_text w ys Hy)
    end.
    repeat split; auto; try (now apply digits_decimal).
    + rewrite text_app, text_cons, !text_app, !text_uchars. reflexivity.
    + intros E. match goal with H : 1 <= length ?ds, Hd : forallb _ ?ds = true |- _ =>
        apply (f_equal uchars) in E; rewrite (digits_text w ds Hd) in E;
        subst ds; simpl in H; lia end.
    + lia.
  - intros [s0 [Hs [kind [day [month [year [-> [Hk [Hd [Hdd [Hm [Hy Hyd]]]]]]]]]]]].
    apply digits_decimal in Hdd. apply digits_decimal in Hyd.
    destruct (line_end_elim _ _ Hs) as [v [Hc Hv]].
    assert (E : uchars (kind ++ "_" ++ day ++ month ++ year)
                = (uchars kind ++ uchars "_" ++ uchars day
                   ++ uchars month ++ uchars year)%list).
    { rewrite (uchars_app kind) by reflexivity.
      change ("_" ++ day ++ month ++ year) with (String "_" (day ++ month ++ year)).
      rewrite uchars_ascii by reflexivity.
      rewrite (uchars_app_decodable day) by now apply (digits_decodable w).
      rewrite (uchars_app_decodable month).
      - reflexivity.
      - simpl in Hm. repeat (destruct Hm as [<-|Hm]; [reflexivity|]). destruct Hm. }
    exists (uchars (kind ++ "_" ++ day ++ month ++ year)), v. split; [assumption|].
    exists [], (uchars (kind ++ "_" ++ day ++ month ++ year)). repeat split.
    rewrite E.
    exists (uchars kind), (uchars "_" ++ uchars day ++ uchars month ++ uchars year)%list.
    split; [reflexivity|]. split; [apply den_alts_lit; eauto|].
    exists (uchars "_"), (uchars day ++ uchars month ++ uchars year)%list.
    split; [reflexivity|]. split; [reflexivity|].
    exists (uchars day), (uchars month ++ uchars year)%list.
    split; [reflexivity|]. split.
    { repeat split; auto.
      destruct (uchars day) eqn:Ed; [|simpl; lia].
      apply uchars_nil in Ed. contradiction. }
    exists (uchars month), (uchars year).
    split; [reflexivity|]. split; [apply den_alts_lit; eauto|].
    exists (uchars year), []. rewrite app_nil_r.
    repeat split; auto; lia.
Qed.

(** The class [[a-f0-9]] has single bytes only. *)
Lemma hexlower_bytes l :
  forallb is_hexlower l = true
  <-> exists bs, l = map char1 bs /\ forallb ascii_hexlower bs = true.
Proof.
  split.
  - induction l as [|ch l IH]; intros H.
    + exists []. auto.
    + simpl in H. apply andb_true_iff in H. destruct H as [H1 H2].
      destruct (IH H2) as [bs [-> Hbs]].
      apply class_spec in H1. destruct H1 as [[b [-> Hb]]|[_ H1]]; [|discriminate].
      exists (b :: bs). simpl. rewrite Hb, Hbs. auto.
  - intros [bs [-> H]]. induction bs as [|b bs IH]; [reflexivity|].
    simpl in H. apply andb_true_iff in H. destruct H as [H1 H2].
    simpl. rewrite (IH H2), andb_true_r. exact H1.
Qed.

Lemma hexlower_ascii bs :
  forallb ascii_hexlower bs = true -> forallb is_ascii bs = true.
Proof.
  rewrite !forallb_forall. intros H b Hin. apply ascii_hexlower_ascii. now apply H.
Qed.

Lemma rev3_spec (s : string) :
  matches rev3 s = true
  <-> exists s0, (s = s0 \/ s = s0 ++ nl) /\ lower_hex40 s0.
Proof.
  rewrite matches_den. unfold rev3, times. cbn [den seqs within]. split.
  - intros H. break. subst.
    match goal with H : uchars s = _ |- _ => simpl app in H; rewrite app_nil_r in H;
      apply line_end_intro in H; [|assumption] end.
    match goal with Hs : s = text ?hs \/ _, Hh : forallb is_hexlower ?hs = true |- _ =>
      exists (text hs); split; [assumption|];
      apply hexlower_bytes in Hh; destruct Hh as [bs [-> Hbs]] end.
    unfold lower_hex40, all_chars.
    rewrite <- chars_length, text_chars1. rewrite length_map in *.
    split; [lia | assumption].
  - intros [s0 [Hs [Hlen Hhex]]].
    destruct (line_end_elim _ _ Hs) as [v [Hc Hv]].
    exists (uchars s0), v. split; [assumption|].
    exists [], (uchars s0). repeat split.
    exists (uchars s0), []. rewrite app_nil_r.
    rewrite (uchars_all_ascii s0) by now apply hexlower_ascii.
    rewrite length_map, chars_length.
    repeat split; try lia; try assumption.
    apply hexlower_bytes. now exists (chars s0).
Qed.

(** What the three patterns accept together, the line feed that [$]
    lets through included. *)
Lemma valid_revision_spec w (s : string) :
  valid_revision w s = true
  <-> exists s0, (s = s0 \/ s = s0 ++ nl)
                 /\ (In s0 keywords \/ dated_tag w s0 \/ lower_hex40 s0).
Proof.
  unfold valid_revision.
  rewrite negb_true_iff, !andb_false_iff, !negb_false_iff.
  rewrite rev1_spec, rev2_spec, rev3_spec.
  split.
  - intros [[[s0 [H1 H2]]|[s0 [H1 H2]]]|[s0 [H1 H2]]]; exists s0; auto.
  - intros [s0 [H1 [H2|[H2|H2]]]]; [left; left | left; right | right]; eauto.
Qed.

Lemma endswith_app_nl (s0 : string) : endswith_char LF (s0 ++ nl) = true.
Proof.
  unfold endswith_char.
  assert (H : last_char (s0 ++ nl) = Some LF).
  { induction s0 as [|c s0 IH]; [reflexivity|].
    simpl. rewrite IH. destruct (s0 ++ nl) eqn:E; [|reflexivity].
    destruct s0; discriminate. }
  rewrite H. apply Ascii.eqb_refl.
Qed.

(** C4 (as the code has it).  Among the strings that do not end in a
    line feed, the accepted revisions are exactly the four keywords, the
    dated tags (patch or stable, an underscore, a day number, a month
    name, a year of four digits) and the strings of forty characters out
    of 0-9 and a-f in lower case, in every environment.  The digits of a
    dated tag are those of the pattern class of the interpreter: 0-9
    and, beyond ASCII, what its character database takes for a decimal
    digit.  So the two dated tags of the specification and every such
    lower-case hash are accepted and foo is not; a tag whose day is
    written in Arabic-Indic digits is accepted by an interpreter that
    knows them and by no interpreter whose patterns know ASCII only. *)
Theorem revision_accepted_exactly :
  (forall w s,
      endswith_char LF s = false ->
      (valid_revision w s = true
       <-> In s ["stable"; "release"; "develop"; "maintenance"]
           \/ dated_tag w s \/ lower_hex40 s))
  /\ (forall w s, In s ["stable"; "release"; "develop"; "maintenance"] ->
                  valid_revision w s = true)
  /\ (forall w, valid_revision w "patch_15Mar2024" = true)
  /\ (forall w, valid_revision w "stable_01Jan2023" = true)
  /\ (forall w s, lower_hex40 s -> valid_revision w s = true)
  /\ (forall w, valid_revision w "foo" = false)
  /\ valid_revision Sample.world Sample.arabic_tag = true
  /\ (forall w, (forall ch, unicode_digit w ch = false) ->
                valid_revision w Sample.arabic_tag = false).
Proof.
  split; [|split; [|split; [|split; [|split; [|split; [|split]]]]]];
    try reflexivity.
  - intros w s Hend. rewrite valid_revision_spec. split.
    + intros [s0 [[->| ->] H]]; [exact H|].
      rewrite endswith_app_nl in Hend. discriminate.
    + intros H. exists s. auto.
  - intros w s Hin. apply valid_revision_spec. exists s. auto.
  - intros w s Hhex. apply valid_revision_spec. exists s. auto.
  - intros w Hdb. unfold valid_revision.
    change (matches rev1 Sample.arabic_tag) with false.
    change (matches rev3 Sample.arabic_tag) with false.
    assert (E : matches (rev2 w) Sample.arabic_tag = false).
    { unfold matches, re_match, rev2, digit. revert Hdb.
      generalize (unicode_digit w). intros db Hdb.
      vm_compute. rewrite Hdb. reflexivity. }
    rewrite E. reflexivity.
Qed.

Lemma revision_accepted_exactly_witness :
  valid_revision Sample.world "stable_01Jan2023" = true
  <-> In "stable_01Jan2023" ["stable"; "release"; "develop"; "maintenance"]
      \/ dated_tag Sample.world "stable_01Jan2023" \/ lower_hex40 "stable_01Jan2023".
Proof.
  apply (proj1 revision_accepted_exactly Sample.world "stable_01Jan2023"). reflexivity.
Defined.

(** C4 as stated fails: a string of forty hexadecimal digits with the
    letters in upper case is turned down, in every environment. *)
Lemma upper_case_hash_rejected :
  hex40 Sample.upper_hash /\ forall w, valid_revision w Sample.upper_hash = false.
Proof. split; [split; reflexivity | reflexivity]. Qed.

(** The end-of-line anchor lets a final line feed through. *)
Example line_feed_accepted : forall w, valid_revision w ("stable" ++ nl) = true.
Proof. reflexivity. Qed.

(** The usage text offers [-r maintenance_<date>]; the pattern has only
    patch and stable. *)
Example maintenance_tag_rejected :
  forall w, valid_revision w "maintenance_01Jan2023" = false.
Proof. reflexivity. Qed.

End Revisions.

(** ** The version of the installer *)
Module Version.
Import Py Re Script Spec StrFacts Utf8 ReFacts Revisions.
Local Open Scope list_scope.




Lemma quotes_app a b : quotes (a ++ b) = quotes a + quotes b.
Proof. unfold quotes. now rewrite filter_app, length_app. Qed.


Lemma quotes_cons c l :
  quotes (c :: l) = (if String.eqb dq c then 1 else 0) + quotes l.
Proof. unfold quotes. cbn [filter]. destruct (String.eqb dq c); reflexivity. Qed.




(** The class [\w] of the script and the word characters. *)
Lemma wordchar_alphanumeric w ch : wordchar w ch = true <-> alphanumeric w ch.
Proof. apply class_spec. Qed.


Lemma word_intro w (t : string) :
  t <> ""%string -> forallb (wordchar w) (uchars t) = true -> word w t.
Proof.
  intros Hne H. split; [exact Hne|].
  apply Forall_forall. intros ch Hin. apply wordchar_alphanumeric.
  rewrite forallb_forall in H. now apply H.
Qed.





(** The characters of a version line with three words in double quotes. *)
Lemma version_line_chars w (pre t1 t2 t3 post : string) :
  word w t1 -> word w t2 -> word w t3 ->
  uchars (pre ++ dq ++ t1 ++ " " ++ t2 ++ " " ++ t3 ++ dq ++ post)%string
  = uchars pre ++ [dq] ++ uchars t1 ++ [" "%string] ++ uchars t2 ++ [" "%string]
    ++ uchars t3 ++ [dq] ++ uchars post.
Proof.
  intros H1 H2 H3.
  rewrite (uchars_app pre) by reflexivity.
  change (dq ++ t1 ++ " " ++ t2 ++ " " ++ t3 ++ dq ++ post)%string
    with (String DQ (t1 ++ " " ++ t2 ++ " " ++ t3 ++ dq ++ post)%string).
  rewrite uchars_ascii by reflexivity.
  rewrite (uchars_app t1) by reflexivity.
  change (" " ++ t2 ++ " " ++ t3 ++ dq ++ post)%string
    with (String " " (t2 ++ " " ++ t3 ++ dq ++ post)%string).
  rewrite uchars_ascii by reflexivity.
  rewrite (uchars_app t2) by reflexivity.
  change (" " ++ t3 ++ dq ++ post)%string with (String " " (t3 ++ dq ++ post)%string).
  rewrite uchars_ascii by reflexivity.
  rewrite (uchars_app t3) by reflexivity.
  change (dq ++ post)%string with (String DQ post).
  rewrite uchars_ascii by reflexivity.
  reflexivity.
Qed.








(** Two spaces between the words do as a tab does, in every
    environment. *)
Example double_space_line_raises :
  forall w, parse_version_line w (dq ++ "LAMMPS  2 Aug2023" ++ dq)%string = None.
Proof. reflexivity. Qed.

(** A word may hold letters beyond ASCII where the interpreter knows
    them. *)
Example accented_word_accepted :
  parse_version_line Sample.world
    (dq ++ "2 Ao" ++ String (ascii_of_nat 195) (String (ascii_of_nat 187) "t")
     ++ " 2023" ++ dq)%string
  = Some ("2Ao" ++ String (ascii_of_nat 195) (String (ascii_of_nat 187) "t")
          ++ "2023")%string.
Proof. reflexivity. Qed.

End Version.

(** ** More on the option loop and the checks *)
Module Validation.
Import Py Re Script Spec Extra StrFacts ParseFacts Rejection Options.

(** The loop stops at the first pair it cannot take: what follows on the
    command line is not looked at. *)
Theorem first_error_wins (w : World) (pre post : list string) (flag value : string)
        (c0 c1 : config) (h h1 h2 : list event) (o : outcome config) :
  Nat.even (List.length pre) = true ->
  parse_args w pre c0 h = (h1, Ret c1) ->
  parse_flag w flag value c1 h1 = (h2, o) ->
  (forall c2, o <> Ret c2) ->
  parse_args w (List.app pre (flag :: value :: post)) c0 h = (h2, o).
Proof.
  intros Hev Hpre Hflag Hbad.
  rewrite (parse_args_app w pre (flag :: value :: post) Hev).
  unfold bind. rewrite Hpre. cbn [parse_args]. unfold bind. rewrite Hflag.
  destruct o as [c2|st|e]; [|reflexivity|reflexivity].
  exfalso. exact (Hbad c2 eq_refl).
Qed.

Lemma first_error_wins_witness :
  parse_args Sample.world ["-b"; "32"; "-y"; "perhaps"; "-x"; "1"]
             (defaults Sample.world) []
  = ([Stdout (print_text ["cmake-win-on-linux.py"; "ERROR:";
                          "Unknown python option: perhaps"])],
     Exit 0%Z).
Proof.
  eapply (first_error_wins Sample.world ["-b"; "32"] ["-x"; "1"] "-y" "perhaps").
  - reflexivity.
  - reflexivity.
  - reflexivity.
  - intros c2. discriminate.
Defined.

(** A value of [-j] that [int()] does not take ends the run with the
    uncaught ValueError: no usage text, no ERROR line, exit status 1. *)
Theorem bad_cpu_count_raises
        (w : World) (pre post : list string) (value : string) (c1 : config) :
  Nat.even (List.length pre) = true ->
  parse_args w pre (defaults w) [] = ([], Ret c1) ->
  py_int w value = None ->
  run w (List.app pre ("-j" :: value :: post)) = ([], Uncaught "ValueError")
  /\ exit_status (snd (run w (List.app pre ("-j" :: value :: post)))) = 1%Z.
Proof.
  intros Hev Hpre Hint.
  assert (Hrun : run w (List.app pre ("-j" :: value :: post)) = ([], Uncaught "ValueError")).
  { unfold run, script, validate, bind.
    rewrite (parse_args_app w pre ("-j" :: value :: post) Hev).
    unfold bind. rewrite Hpre. cbn [parse_args]. unfold bind, parse_flag.
    simpl. now rewrite Hint. }
  split; [exact Hrun | now rewrite Hrun].
Qed.

Lemma bad_cpu_count_raises_witness :
  run Sample.world ["-p"; "mpi"; "-j"; "many"; "-x"; "1"] = ([], Uncaught "ValueError").
Proof.
  apply (bad_cpu_count_raises Sample.world ["-p"; "mpi"] ["-x"; "1"] "many"
           (Spec.set_numcpus 4 {| bitflag := "64"; numcpus := 4; parflag := "mpi";
              pythonflag := false; guiflag := false; thrflag := "omp";
              revflag := "stable"; verbose := false;
              gitdir := "/home/user/lammps-packages/mingw-cross/lammps";
              adminflag := true; msixflag := false |}));
    reflexivity.
Defined.

(** A last flag without a value is answered with the line about the
    missing argument and the usage text, whether the flag is known or
    not; a flag the loop does not know is answered with the line about
    the unknown flag and the usage text, whatever follows it.  In both
    cases the pairs before it must have been taken. *)
Theorem missing_value_and_unknown_flag
        (w : World) (pre : list string) (flag : string) (c1 : config) :
  Nat.even (List.length pre) = true ->
  parse_args w pre (defaults w) [] = ([], Ret c1) ->
  run w (List.app pre [flag])
  = ([Stdout (print_text [nl ++ "Missing argument to flag:"; flag]);
      Stdout (print_text [helpmsg w])], Exit 0%Z)
  /\ (~ In flag known_flags ->
      forall value post,
        run w (List.app pre (flag :: value :: post))
        = ([Stdout (print_text [nl ++ "Unknown flag:"; flag]);
            Stdout (print_text [helpmsg w])], Exit 0%Z)).
Proof.
  intros Hev Hpre. split.
  - unfold run, script, validate, bind.
    rewrite (parse_args_app w pre [flag] Hev). unfold bind. rewrite Hpre.
    reflexivity.
  - intros Hunknown value post.
    unfold run, script, validate, bind.
    rewrite (parse_args_app w pre (flag :: value :: post) Hev).
    unfold bind. rewrite Hpre. cbn [parse_args]. unfold bind, parse_flag.
    unfold known_flags in Hunknown. simpl in Hunknown.
    repeat match goal with
           | |- context [if String.eqb flag ?s then _ else _] =>
               destruct (String.eqb_spec flag s) as [E|_];
               [exfalso; apply Hunknown; rewrite E; tauto|]
           end.
    reflexivity.
Qed.

Lemma missing_value_and_unknown_flag_witness :
  run Sample.world ["-b"; "32"; "--help"]
  = ([Stdout (print_text [nl ++ "Missing argument to flag:"; "--help"]);
      Stdout (print_text [helpmsg Sample.world])], Exit 0%Z)
  /\ run Sample.world ["-b"; "32"; "-h"; "-b"; "16"]
     = ([Stdout (print_text [nl ++ "Unknown flag:"; "-h"]);
         Stdout (print_text [helpmsg Sample.world])], Exit 0%Z).
Proof.
  pose proof (missing_value_and_unknown_flag Sample.world ["-b"; "32"]) as H.
  split.
  - apply (H "--help" _ eq_refl eq_refl).
  - apply (proj2 (H "-h" _ eq_refl eq_refl)).
    + simpl. intuition discriminate.
Defined.

Lemma when_error_ret {A} w b msg (k : unit -> M A) h h' a :
  bind (when b (error w msg)) k h = (h', Ret a)
  <-> b = false /\ k tt h = (h', Ret a).
Proof.
  destruct b; simpl.
  - split; [|intros [? _]; discriminate].
    unfold bind, error, print, emit, sys_exit.
    destruct msg as [[|? ?]|]; discriminate.
  - unfold bind, ret. split; [auto | tauto].
Qed.

Lemma in2 (s a b : string) :
  (negb (s =? a) && negb (s =? b))%bool = false <-> In s [a; b].
Proof.
  simpl. destruct (String.eqb_spec s a), (String.eqb_spec s b); simpl;
    split; auto; intros; intuition congruence.
Qed.

Lemma in3 (s a b c : string) :
  (negb (s =? a) && negb (s =? b) && negb (s =? c))%bool = false <-> In s [a; b; c].
Proof.
  simpl. destruct (String.eqb_spec s a), (String.eqb_spec s b), (String.eqb_spec s c);
    simpl; split; auto; intros; intuition congruence.
Qed.

Lemma bind_assoc {A B C} (m : M A) (f : A -> M B) (g : B -> M C) h :
  bind (bind m f) g h = bind m (fun a => bind (f a) g) h.
Proof.
  unfold bind. destruct (m h) as [h1 [a|st|e]]; reflexivity.
Qed.

Lemma checks_pass w c h h' :
  bind (checks w c) (fun _ => bind (check_revision w c) (fun _ => ret c)) h = (h', Ret c)
  -> h' = h /\ well_formed w c.
Proof.
  intros H. unfold well_formed.
  unfold checks in H. rewrite <- !in2, <- in3.
  rewrite bind_assoc in H. apply when_error_ret in H. destruct H as [Hbit H].
  rewrite bind_assoc in H. apply when_error_ret in H. destruct H as [Hpar H].
  rewrite bind_assoc in H. apply when_error_ret in H. destruct H as [Hthr H].
  apply when_error_ret in H. destruct H as [Hpg H].
  unfold check_revision in H. apply when_error_ret in H. destruct H as [Hrev H].
  injection H as <-.
  apply negb_false_iff in Hrev. auto 10.
Qed.

Lemma validate_accepted_well_formed w args h h' c :
  validate w args h = (h', Ret c) -> well_formed w c.
Proof.
  unfold validate. intros H. apply bind_ret_inv in H. destruct H as [c1 [h1 [Hp H]]].
  assert (c1 = c) as ->.
  { apply bind_ret_inv in H. destruct H as [[] [h2 [_ H]]].
    apply bind_ret_inv in H. destruct H as [[] [h3 [_ H]]].
    now injection H. }
  now apply checks_pass in H.
Qed.

(** A command line passes validation exactly when the option loop takes
    all its pairs and the configuration it ends with is well formed:
    bitness 32 or 64, parallelism no, mpi or ms, threading no or omp,
    not both python and the GUI, and a valid revision.  The
    configuration that goes on to the build is the one of the loop. *)
Theorem validate_accepts
        (w : World) (args : list string) (h h' : list event) (c : config) :
  validate w args h = (h', Ret c)
  <-> parse_args w args (defaults w) h = (h', Ret c) /\ h' = h /\ well_formed w c.
Proof.
  unfold validate, well_formed. split.
  - intros H. apply bind_ret_inv in H. destruct H as [c1 [h1 [Hp H]]].
    pose proof (parse_args_silent _ _ _ _ _ _ Hp) as ->.
    unfold checks in H. rewrite <- !in2, <- in3.
    rewrite bind_assoc in H. apply when_error_ret in H. destruct H as [Hbit H].
    rewrite bind_assoc in H. apply when_error_ret in H. destruct H as [Hpar H].
    rewrite bind_assoc in H. apply when_error_ret in H. destruct H as [Hthr H].
    apply when_error_ret in H. destruct H as [Hpg H].
    unfold check_revision in H. apply when_error_ret in H. destruct H as [Hrev H].
    injection H as <- <-.
    apply negb_false_iff in Hrev. auto 10.
  - intros [Hp [-> [Hbit [Hpar [Hthr [Hpg Hrev]]]]]].
    apply in2 in Hbit, Hthr. apply in3 in Hpar.
    unfold bind at 1. rewrite Hp.
    unfold checks. rewrite Hbit, Hpar, Hthr, Hpg.
    unfold check_revision. rewrite Hrev. reflexivity.
Qed.

Lemma validate_accepts_witness :
  validate Sample.world ["-a"; "no"; "-r"; "patch_15Mar2024"] []
  = ([], Ret {| bitflag := "64"; numcpus := 4; parflag := "no"; pythonflag := false;
               guiflag := false; thrflag := "omp"; revflag := "patch_15Mar2024";
               verbose := false;
               gitdir := "/home/user/lammps-packages/mingw-cross/lammps";
               adminflag := false; msixflag := false |}).
Proof.
  apply (proj2 (validate_accepts Sample.world _ [] [] _)).
  split; [reflexivity|]. split; [reflexivity|].
  unfold well_formed. simpl. repeat split; auto.
Defined.

(** For a configuration that has passed validation the toolchain
    directory is defined, so that the installer builder is always
    started and the name [mingwdir] is never read unbound. *)
Theorem mingwdir_defined_after_validation
        (w : World) (args : list string) (h h' : list event) (c : config) :
  validate w args h = (h', Ret c) ->
  exists dir,
    mingwdir c = Some dir
    /\ In dir ["/usr/i686-w64-mingw32/sys-root/mingw/bin/";
               "/usr/x86_64-w64-mingw32/sys-root/mingw/bin/"]
    /\ forall version,
        run_makensis w c version = system_v w c (makensis_cmd c dir version).
Proof.
  intros H. apply validate_accepted_well_formed in H.
  destruct H as [Hbit _]. unfold run_makensis, mingwdir.
  simpl in Hbit. destruct Hbit as [<-|[<-|[]]]; simpl; eexists; repeat split; auto.
Qed.

Lemma mingwdir_defined_after_validation_witness :
  exists dir,
    mingwdir (defaults Sample.world) = Some dir
    /\ In dir ["/usr/i686-w64-mingw32/sys-root/mingw/bin/";
               "/usr/x86_64-w64-mingw32/sys-root/mingw/bin/"]
    /\ forall version,
        run_makensis Sample.world (defaults Sample.world) version
        = system_v Sample.world (defaults Sample.world)
            (makensis_cmd (defaults Sample.world) dir version).
Proof.
  apply (mingwdir_defined_after_validation Sample.world [] [] []). reflexivity.
Defined.

End Validation.

(** ** Looking up the tools *)

Module Toolchain.
Import Py Re Script Spec Extra StrFacts.

Lemma find_exe_some w paths program f :
  find_exe w paths program = Some f ->
  is_exe w f = true
  /\ exists before dir after,
      paths = List.app before (dir :: after)
      /\ f = path_join (strip_char DQ dir) [program]
      /\ forall d, In d before ->
                   is_exe w (path_join (strip_char DQ d) [program]) = false.
Proof.
  induction paths as [|p paths IH]; cbn [find_exe]; [discriminate|].
  destruct (is_exe w (path_join (strip_char (ascii_of_nat 34) p) [program])) eqn:E.
  - intros H. injection H as <-. split; [exact E|].
    exists [], p, paths. repeat split. intros d [].
  - intros H. destruct (IH H) as [Hx [before [dir [after [-> [-> Hb]]]]]].
    split; [exact Hx|].
    exists (p :: before), dir, after. repeat split.
    intros d [<-|Hd]; [exact E | auto].
Qed.

Lemma find_exe_none w paths program :
  find_exe w paths program = None ->
  forall d, In d paths -> is_exe w (path_join (strip_char DQ d) [program]) = false.
Proof.
  induction paths as [|p paths IH]; cbn [find_exe]; [intros _ d []|].
  destruct (is_exe w (path_join (strip_char (ascii_of_nat 34) p) [program])) eqn:E;
    [discriminate|].
  intros H d [<-|Hd]; [exact E | auto].
Qed.

(** [which] never changes the trace and only ever answers with a file
    that is executable.  A name with a directory part is answered with
    itself or not at all.  A bare name is looked up in the entries of
    PATH from left to right, each stripped of double quotes: the answer
    is the first entry under which the file is executable, and None
    means that it is executable under none.  Without PATH in the
    environment the lookup of a bare name ends in KeyError. *)
Theorem which_first_on_path (w : World) (program : string) (h : list event) :
  (forall h' f,
      which w program h = (h', Ret (Some f)) ->
      h' = h /\ is_exe w f = true
      /\ (has_dir program = true -> f = program)
      /\ (has_dir program = false ->
          exists search before dir after,
            env_PATH w = Some search
            /\ split_on ":" search = List.app before (dir :: after)
            /\ f = path_join (strip_char DQ dir) [program]
            /\ forall d, In d before ->
                         is_exe w (path_join (strip_char DQ d) [program]) = false))
  /\ (forall h',
      which w program h = (h', Ret None) ->
      h' = h
      /\ (has_dir program = true -> is_exe w program = false)
      /\ (has_dir program = false ->
          exists search,
            env_PATH w = Some search
            /\ forall d, In d (split_on ":" search) ->
                         is_exe w (path_join (strip_char DQ d) [program]) = false))
  /\ (has_dir program = false -> env_PATH w = None ->
      which w program h = (h, Uncaught "KeyError")).
Proof.
  unfold which. split; [|split].
  - intros h' f H. destruct (has_dir program).
    + destruct (is_exe w program) eqn:E; [|discriminate]. injection H as <- <-.
      repeat split; auto. discriminate.
    + destruct (env_PATH w) as [search|]; [|discriminate].
      injection H as <- H. destruct (find_exe_some _ _ _ _ H) as [Hx Hsplit].
      repeat split; auto; [discriminate|].
      intros _. destruct Hsplit as [before [dir [after Hs]]].
      exists search, before, dir, after. tauto.
  - intros h' H. destruct (has_dir program).
    + destruct (is_exe w program) eqn:E; [discriminate|]. injection H as <-.
      repeat split; auto. discriminate.
    + destruct (env_PATH w) as [search|]; [|discriminate].
      injection H as <- H. repeat split; [discriminate|].
      intros _. exists search. split; [reflexivity|].
      exact (find_exe_none _ _ _ H).
  - intros Hd Hp. rewrite Hd, Hp. reflexivity.
Qed.

Lemma which_first_on_path_witness :
  which Sample.world "makensis" [] = ([], Ret (Some "/usr/bin/makensis"))
  /\ is_exe Sample.world "/usr/bin/makensis" = true.
Proof.
  assert (H : which Sample.world "makensis" [] = ([], Ret (Some "/usr/bin/makensis")))
    by reflexivity.
  split; [exact H|].
  exact (proj1 (proj2 (proj1 (which_first_on_path Sample.world "makensis" []) _ _ H))).
Defined.

End Toolchain.

(** ** Every failure ends the run *)

Module FailFast.
Import Py Re Script Spec Extra StrFacts ParseFacts.
Local Open Scope list_scope.

Lemma went_through_app w a : forall h b,
  went_through w h (a ++ b) <-> went_through w h a /\ went_through w (h ++ a) b.
Proof.
  induction a as [|e a IH]; intros h b; simpl.
  - rewrite app_nil_r. tauto.
  - rewrite IH, <- app_assoc. simpl. tauto.
Qed.

Lemma ff_pure {A} w (f : list event -> A) : fail_fast w (fun h => (h, Ret (f h))).
Proof.
  intros h h' o H. injection H as <- <-. exists []. rewrite app_nil_r.
  split; [reflexivity|]. exists [], []. simpl. auto.
Qed.

Lemma ff_ret {A} w (a : A) : fail_fast w (ret a).
Proof. apply (ff_pure w (fun _ => a)). Qed.

Lemma ff_raise {A} w exn : fail_fast w (@raise A exn).
Proof.
  intros h h' o H. injection H as <- <-. exists []. rewrite app_nil_r.
  split; [reflexivity|]. exists [], []. simpl. auto.
Qed.

Lemma ff_pure_or_raise {A} w (f : list event -> option A) exn :
  fail_fast w (fun h => match f h with
                        | Some a => (h, Ret a)
                        | None => (h, Uncaught exn)
                        end).
Proof.
  intros h h' o H. destruct (f h); injection H as <- <-; exists [];
    rewrite app_nil_r; (split; [reflexivity|]); exists [], []; simpl; auto.
Qed.

Lemma ff_print w args : fail_fast w (print args).
Proof.
  intros h h' o H. injection H as <- <-. exists [Stdout (print_text args)].
  split; [reflexivity|]. exists [Stdout (print_text args)], []. simpl. auto.
Qed.

Lemma ff_rmtree w path : fail_fast w (emit (Rmtree path)).
Proof.
  intros h h' o H. injection H as <- <-. exists [Rmtree path].
  split; [reflexivity|]. exists [Rmtree path], []. simpl. auto.
Qed.

Lemma ff_fs w e : file_operation e = true -> fail_fast w (fs w e).
Proof.
  intros He h h' o H. unfold fs in H. exists [e].
  destruct (raises w h e) as [exn|] eqn:E; injection H as <- <-;
    (split; [reflexivity|]).
  - exists [], [e]. simpl. repeat split; auto. right. exists e, [].
    rewrite app_nil_r. split; [reflexivity|]. split; [constructor|].
    destruct e; simpl in *; try discriminate; congruence.
  - exists [e], []. simpl. repeat split; auto.
    destruct e; simpl in *; try discriminate; auto.
Qed.

Lemma error_runs {A} w msg h :
  exists text, @error w A msg h = (h ++ [Stdout text], Exit 0%Z).
Proof.
  unfold error, bind, print, emit, sys_exit.
  destruct msg as [[|? ?]|]; eexists; reflexivity.
Qed.

Lemma ff_error {A} w msg : fail_fast w (@error w A msg).
Proof.
  intros h h' o H. destruct (error_runs (A:=A) w msg h) as [text Ht].
  rewrite Ht in H. injection H as <- <-. exists [Stdout text].
  split; [reflexivity|]. exists [], [Stdout text]. simpl. repeat split; auto.
  exists [Stdout text]. repeat split; [discriminate | | now left].
  constructor; [eauto | constructor].
Qed.

Lemma ff_bind {A B} w (m : M A) (f : A -> M B) :
  fail_fast w m -> (forall a, fail_fast w (f a)) -> fail_fast w (bind m f).
Proof.
  intros Hm Hf h h' o H. unfold bind in H.
  destruct (m h) as [h1 [a|st|exn]] eqn:E;
    destruct (Hm _ _ _ E) as [ext1 [-> [good1 [tail1 [-> [Hg1 Ht1]]]]]].
  - subst tail1. rewrite app_nil_r in *.
    destruct (Hf a _ _ _ H) as [ext2 [-> [good2 [tail2 [-> [Hg2 Ht2]]]]]].
    exists (good1 ++ good2 ++ tail2).
    split; [repeat rewrite <- app_assoc; reflexivity|].
    exists (good1 ++ good2), tail2.
    split; [repeat rewrite <- app_assoc; reflexivity|].
    split; [apply went_through_app; auto|].
    rewrite app_assoc. exact Ht2.
  - injection H as <- <-. exists (good1 ++ tail1). split; [reflexivity|].
    exists good1, tail1. auto.
  - injection H as <- <-. exists (good1 ++ tail1). split; [reflexivity|].
    exists good1, tail1. auto.
Qed.

Lemma ff_when w b (m : M unit) : fail_fast w m -> fail_fast w (when b m).
Proof. destruct b; simpl; auto using ff_ret. Qed.

Lemma ff_for_each {A} w (xs : list A) (f : A -> M unit) :
  (forall x, fail_fast w (f x)) -> fail_fast w (for_each xs f).
Proof.
  intros Hf. induction xs as [|x xs IH]; simpl; [apply ff_ret|].
  apply ff_bind; auto.
Qed.

Lemma ff_system w cmd : fail_fast w (system w cmd).
Proof.
  intros h h' o H. unfold system, bind, fs in H.
  destruct (raises w h (Shell cmd)) as [exn|] eqn:R.
  { injection H as <- <-. exists [Shell cmd]. split; [reflexivity|].
    exists [], [Shell cmd]. simpl. repeat split; auto.
    right. exists (Shell cmd), []. rewrite app_nil_r.
    split; [reflexivity|]. split; [constructor|]. simpl. left. congruence. }
  destruct (shell w (h ++ [Shell cmd]) cmd) as [[|] txt] eqn:E.
  - exists [Shell cmd]. unfold decode in H.
    destruct (utf8 txt); injection H as <- <-; (split; [reflexivity|]);
      exists [Shell cmd], []; simpl; rewrite E; auto.
  - unfold print, emit, decode, bind in H. destruct (utf8 txt).
    + cbv beta iota in H. unfold ret in H.
      destruct (error_runs (A:=string) w (Some txt)
                  ((h ++ [Shell cmd]) ++
                   [Stdout (print_text
                      [pyformat "Command '%s' returned non-zero exit status" [PStr cmd]])]))
        as [text Ht].
      rewrite Ht in H. injection H as <- <-.
      eexists (Shell cmd :: Stdout _ :: [Stdout text]).
      split; [rewrite <- !app_assoc; reflexivity|].
      exists [], (Shell cmd :: Stdout (print_text
                [pyformat "Command '%s' returned non-zero exit status" [PStr cmd]])
                :: [Stdout text]).
      simpl. repeat split; auto.
      eexists (Stdout _ :: [Stdout text]). repeat split; [discriminate | |].
      * repeat constructor; eauto.
      * right. exists (Shell cmd). split; [reflexivity|].
        simpl. rewrite app_nil_r, E. now right.
    + unfold raise in H. injection H as <- <-.
      eexists (Shell cmd :: [Stdout _]).
      split; [rewrite <- !app_assoc; reflexivity|].
      exists [], (Shell cmd :: [Stdout (print_text
                [pyformat "Command '%s' returned non-zero exit status" [PStr cmd]])]).
      simpl. repeat split; auto.
      right. eexists (Shell cmd), [Stdout _]. split; [reflexivity|].
      split; [repeat constructor; eauto|].
      simpl. rewrite app_nil_r, E. now right.
Qed.

Lemma ff_system_v w c cmd : fail_fast w (system_v w c cmd).
Proof.
  unfold system_v. apply ff_bind; [apply ff_system|].
  intros txt. apply ff_when, ff_print.
Qed.

Lemma ff_make_builddir w c : fail_fast w (make_builddir w c).
Proof.
  intros h h' o H. unfold make_builddir, bind, emit in H.
  destruct (raises w (h ++ [Rmtree (builddir w c)]) (Mkdir (builddir w c)))
    as [exn|] eqn:E.
  - match type of H with error w ?m ?hh = _ =>
      destruct (error_runs (A:=unit) w m hh) as [text Ht] end.
    rewrite Ht in H. injection H as <- <-.
    exists (Rmtree (builddir w c) :: Mkdir (builddir w c) :: [Stdout text]).
    split; [rewrite <- !app_assoc; reflexivity|].
    exists [Rmtree (builddir w c)], (Mkdir (builddir w c) :: [Stdout text]).
    simpl. repeat split; auto.
    exists [Stdout text]. repeat split; [discriminate | |].
    + repeat constructor; eauto.
    + right. exists (Mkdir (builddir w c)). split; [reflexivity|].
      simpl. congruence.
  - injection H as <- <-.
    exists [Rmtree (builddir w c); Mkdir (builddir w c)].
    split; [rewrite <- !app_assoc; reflexivity|].
    exists [Rmtree (builddir w c); Mkdir (builddir w c)], []. simpl. auto.
Qed.


Ltac ff_step :=
  lazymatch goal with
  | |- fail_fast _ (bind _ _) => apply ff_bind; [|intros ?]
  | |- fail_fast _ (system_v _ _ _) => apply ff_system_v
  | |- fail_fast _ (system _ _) => apply ff_system
  | |- fail_fast _ (when _ _) => apply ff_when
  | |- fail_fast _ (print _) => apply ff_print
  | |- fail_fast _ (emit (Rmtree _)) => apply ff_rmtree
  | |- fail_fast _ (fs _ _) => apply ff_fs; reflexivity
  | |- fail_fast _ (for_each _ _) => apply ff_for_each; intros ?
  | |- fail_fast _ (error _ _) => apply ff_error
  | |- fail_fast _ (raise _) => apply ff_raise
  | |- fail_fast _ (ret _) => apply ff_ret
  end.

Ltac ff := cbv zeta; repeat ff_step.

Lemma ff_which w program : fail_fast w (which w program).
Proof.
  unfold which. destruct (has_dir program); [apply ff_ret|].
  destruct (env_PATH w); [apply ff_ret | apply ff_raise].
Qed.

Lemma ff_probe_toolchain w c : fail_fast w (probe_toolchain w c).
Proof. unfold probe_toolchain. repeat first [apply ff_which | ff_step]. Qed.

Lemma ff_sync_sources w c : fail_fast w (sync_sources w c).
Proof. unfold sync_sources. apply ff_bind; [apply ff_pure | intros ?]. ff. Qed.

Lemma ff_getexe w url name : fail_fast w (getexe w url name).
Proof. unfold getexe. ff. Qed.

Lemma ff_download_tools w c : fail_fast w (download_tools w c).
Proof. unfold download_tools. repeat first [apply ff_getexe | ff_step]. Qed.

Lemma ff_configure_main w c : fail_fast w (configure_main w c).
Proof. unfold configure_main. ff. Qed.

Lemma ff_compile_main w c : fail_fast w (compile_main w c).
Proof. unfold compile_main. ff. Qed.

Lemma ff_build_demo_plugins w c : fail_fast w (build_demo_plugins w c).
Proof. unfold build_demo_plugins. ff. Qed.

Lemma ff_move_up w pattern : fail_fast w (move_up w pattern).
Proof. unfold move_up. apply ff_bind; [apply ff_pure | intros ?]. ff. Qed.

Lemma ff_build_plugin_packages w c : fail_fast w (build_plugin_packages w c).
Proof.
  unfold build_plugin_packages. apply ff_when. cbv zeta.
  repeat first [apply ff_move_up | ff_step].
Qed.

Lemma ff_build_manual w c : fail_fast w (build_manual w c).
Proof. unfold build_manual. ff. Qed.

Lemma ff_collect_files w c : fail_fast w (collect_files w c).
Proof. unfold collect_files, copytree, copy. ff. Qed.

Lemma ff_remove_if_exists w path : fail_fast w (remove_if_exists w path).
Proof. unfold remove_if_exists. apply ff_bind; [apply ff_pure | intros ?]. ff. Qed.

Lemma ff_prune w : fail_fast w (prune w).
Proof. unfold prune. repeat first [apply ff_remove_if_exists | ff_step]. Qed.

Lemma ff_convert_files w c : fail_fast w (convert_files w c).
Proof. unfold convert_files. ff. Qed.

Lemma ff_stage_installer w c : fail_fast w (stage_installer w c).
Proof. unfold stage_installer. ff. Qed.

Lemma ff_derive_version w c : fail_fast w (derive_version w c).
Proof.
  unfold derive_version.
  destruct ((revflag c =? "stable") || (revflag c =? "release")
            || matches (rev2 w) (revflag c))%bool.
  - cbv zeta. apply ff_bind; [apply ff_fs; reflexivity | intros _].
    apply (ff_pure_or_raise w
             (fun h => parse_version_line w
                         (first_line w h (path_join (gitdir c) ["src"; "version.h"])))).
  - destruct ((revflag c =? "develop") || (revflag c =? "maintenance"))%bool.
    + apply (ff_pure w (fun h => strftime_Ymd (localtime w h))).
    + apply ff_ret.
Qed.

Lemma ff_run_makensis w c version : fail_fast w (run_makensis w c version).
Proof. unfold run_makensis. destruct (mingwdir c); ff. Qed.

Lemma ff_cleanup w c : fail_fast w (cleanup w c).
Proof. unfold cleanup. ff. Qed.

Lemma ff_locate_builddir w : fail_fast w (locate_builddir w).
Proof.
  unfold locate_builddir. destruct (fullpath_error w "."); [apply ff_raise | apply ff_ret].
Qed.


Ltac ff_stage :=
  lazymatch goal with
  | |- fail_fast _ (locate_builddir _) => apply ff_locate_builddir
  | |- fail_fast _ (make_builddir _ _) => apply ff_make_builddir
  | |- fail_fast _ (probe_toolchain _ _) => apply ff_probe_toolchain
  | |- fail_fast _ (print_settings _ _ _) => apply ff_print
  | |- fail_fast _ (sync_sources _ _) => apply ff_sync_sources
  | |- fail_fast _ (fs _ _) => apply ff_fs; reflexivity
  | |- fail_fast _ (download_tools _ _) => apply ff_download_tools
  | |- fail_fast _ (configure_main _ _) => apply ff_configure_main
  | |- fail_fast _ (compile_main _ _) => apply ff_compile_main
  | |- fail_fast _ (build_demo_plugins _ _) => apply ff_build_demo_plugins
  | |- fail_fast _ (build_plugin_packages _ _) => apply ff_build_plugin_packages
  | |- fail_fast _ (build_manual _ _) => apply ff_build_manual
  | |- fail_fast _ (collect_files _ _) => apply ff_collect_files
  | |- fail_fast _ (prune _) => apply ff_prune
  | |- fail_fast _ (convert_files _ _) => apply ff_convert_files
  | |- fail_fast _ (stage_installer _ _) => apply ff_stage_installer
  | |- fail_fast _ (derive_version _ _) => apply ff_derive_version
  | |- fail_fast _ (run_makensis _ _ _) => apply ff_run_makensis
  | |- fail_fast _ (cleanup _ _) => apply ff_cleanup
  end.

Lemma ret_extends {A} w (m : M A) h h' a :
  fail_fast w m -> m h = (h', Ret a) -> exists ext, h' = h ++ ext.
Proof.
  intros Hff H. destruct (Hff _ _ _ H) as [ext [-> _]]. eauto.
Qed.



End FailFast.

(** ** External commands *)

Module Commands.
Import Py Re Script Spec Extra StrFacts ParseFacts.
Local Open Scope list_scope.

Lemma shell_commands_app a b :
  shell_commands (a ++ b) = shell_commands a ++ shell_commands b.
Proof. unfold shell_commands. apply flat_map_app. Qed.

Lemma system_v_ret w c cmd h h' :
  system_v w c cmd h = (h', Ret tt) ->
  exists ext, h' = h ++ ext /\ shell_commands ext = [cmd].
Proof.
  unfold system_v, system, bind, fs.
  destruct (raises w h (Shell cmd)); [discriminate|].
  destruct (shell w (h ++ [Shell cmd]) cmd) as [[|] txt].
  - unfold decode. destruct (utf8 txt); [|discriminate]. unfold ret.
    destruct (verbose c); simpl; intros H; injection H as <-.
    + exists [Shell cmd; Stdout (print_text [txt])].
      split; [now rewrite <- app_assoc | reflexivity].
    + exists [Shell cmd]. split; reflexivity.
  - unfold print, emit, decode, bind. destruct (utf8 txt); [|discriminate].
    unfold ret, error, bind, print, emit, sys_exit.
    destruct txt; discriminate.
Qed.

Lemma when_system_v_ret w b c cmd h h' :
  when b (system_v w c cmd) h = (h', Ret tt) ->
  exists ext, h' = h ++ ext /\ shell_commands ext = if b then [cmd] else [].
Proof.
  destruct b; simpl; [apply system_v_ret|].
  intros H. injection H as <-. exists []. now rewrite app_nil_r.
Qed.

(** Bringing the sources up to date, when it succeeds, has run these
    commands in this order: the clone, only when the source folder did
    not exist; the fetch; the checkout of the revision; the pull, only
    for the four moving revisions. *)
Theorem sync_sources_commands (w : World) (c : config) (h h' : list event) :
  sync_sources w c h = (h', Ret tt) ->
  exists ext,
    h' = h ++ ext
    /\ shell_commands ext
       = (if path_exists w h (gitdir c) then []
          else [("git clone https://github.com/lammps/lammps.git " ++ gitdir c)%string])
         ++ ["git fetch origin"; ("git checkout " ++ revflag c)%string]
         ++ (if existsb (String.eqb (revflag c)) keywords then ["git pull"] else []).
Proof.
  unfold sync_sources. intros H.
  apply bind_ret_inv in H. destruct H as [present [h0 [Hp H]]].
  unfold exists_ in Hp. injection Hp as <- <-.
  apply bind_ret_inv in H. destruct H as [[] [h1 [H1 H]]].
  apply when_system_v_ret in H1. destruct H1 as [e1 [-> S1]].
  apply bind_ret_inv in H. destruct H as [[] [h2 [H2 H]]].
  unfold fs in H2.
  destruct (raises w (h ++ e1) (Chdir (gitdir c))); [discriminate|].
  injection H2 as <-.
  apply bind_ret_inv in H. destruct H as [[] [h3 [H3 H]]].
  apply system_v_ret in H3. destruct H3 as [e3 [-> S3]].
  apply bind_ret_inv in H. destruct H as [[] [h4 [H4 H]]].
  apply system_v_ret in H4. destruct H4 as [e4 [-> S4]].
  apply when_system_v_ret in H. destruct H as [e5 [-> S5]].
  exists (e1 ++ [Chdir (gitdir c)] ++ e3 ++ e4 ++ e5).
  split; [repeat rewrite <- app_assoc; reflexivity|].
  rewrite !shell_commands_app, S1, S3, S4, S5.
  simpl pyformat. rewrite !append_nil_r.
  destruct (path_exists w h (gitdir c)); simpl negb; cbv iota;
    unfold keywords; simpl existsb;
    destruct (revflag c =? "develop")%string, (revflag c =? "stable")%string,
      (revflag c =? "release")%string, (revflag c =? "maintenance")%string;
    reflexivity.
Qed.

Lemma sync_sources_commands_witness :
  exists ext,
    fst (sync_sources Sample.world (Sample.on_revision "patch_15Mar2024") []) = ext
    /\ shell_commands ext = ["git fetch origin"; "git checkout patch_15Mar2024"].
Proof.
  destruct (sync_sources_commands Sample.world (Sample.on_revision "patch_15Mar2024")
              [] (fst (sync_sources Sample.world (Sample.on_revision "patch_15Mar2024") []))
              eq_refl) as [ext [He Hs]].
  exists ext. split; [exact He | exact Hs].
Defined.

End Commands.

(** ** Moving the packaged plugins *)

Module Artifacts.
Import Py Re Script Spec Extra StrFacts ParseFacts.
Local Open Scope list_scope.

Lemma basename_no_slash (s : string) : has_dir (basename s) = false.
Proof.
  unfold has_dir. induction s as [|c s IH]; [reflexivity|].
  cbn [basename].
  destruct (existsb (Ascii.eqb "/") (chars s)) eqn:E; [exact IH|].
  destruct (Ascii.eqb c "/") eqn:Ec; [exact E|].
  change (chars (String c s)) with (c :: chars s). cbn [existsb].
  rewrite E, orb_false_r. rewrite Ascii.eqb_sym. exact Ec.
Qed.

Lemma join_parent (name : string) :
  has_dir name = false -> path_join ".." [name] = ("../" ++ name)%string.
Proof.
  intros H. unfold path_join. cbn [fold_left]. unfold join2.
  assert (Hs : startswith "/" name = false).
  { unfold startswith. destruct name as [|c name]; [reflexivity|].
    unfold has_dir in H. change (chars (String c name)) with (c :: chars name) in H.
    cbn [existsb] in H. apply orb_false_iff in H. destruct H as [Hc _].
    cbn [String.prefix]. destruct (ascii_dec "/" c) as [<-|]; [discriminate | reflexivity]. }
  rewrite Hs. reflexivity.
Qed.

Lemma for_each_moves w (exes : list string) : forall h h' o,
  for_each exes (fun exe => fs w (Move exe (path_join ".." [basename exe]))) h = (h', o) ->
  exists moved rest,
    exes = moved ++ rest
    /\ h' = h ++ map move_one moved
    /\ match o with
       | Ret _ => rest = [] /\ went_through w h (map move_one moved)
       | Exit _ => False
       | Uncaught exn =>
           exists before last,
             moved = before ++ [last]
             /\ went_through w h (map move_one before)
             /\ raises w (h ++ map move_one before) (move_one last) = Some exn
       end.
Proof.
  induction exes as [|exe exes IH]; intros h h' o H.
  - injection H as <- <-. exists [], []. simpl. now rewrite app_nil_r.
  - cbn [for_each] in H. unfold bind in H. unfold fs at 1 in H.
    rewrite (join_parent _ (basename_no_slash exe)) in H.
    fold (move_one exe) in H.
    destruct (raises w h (move_one exe)) as [exn|] eqn:R.
    + injection H as <- <-. exists [exe], exes. simpl. repeat split.
      exists [], exe. simpl. rewrite app_nil_r. auto.
    + destruct (IH _ _ _ H) as [moved [rest [-> [-> Ho]]]].
      exists (exe :: moved), rest. simpl. rewrite <- app_assoc. repeat split.
      destruct o as [[]|st|exn].
      * destruct Ho as [-> Hw]. simpl. auto.
      * exact Ho.
      * destruct Ho as [before [last [-> [Hw Hr]]]].
        exists (exe :: before), last. simpl. rewrite <- app_assoc in Hr. auto.
Qed.

(** The packaged plugin installers are moved one level up under their
    own file names: each file the pattern matches, in the order of the
    match, goes to [../] followed by its base name, which has no slash.
    When the stage returns, every file of the match has been moved and
    no move has raised.  The first move that raises ends the run with
    its exception: the moves before it went through and the files after
    it are not touched.  The stage never leaves through [sys.exit()]. *)
Theorem move_up_targets
        (w : World) (pattern : string) (h h' : list event) (o : outcome unit) :
  move_up w pattern h = (h', o) ->
  exists moved rest,
    glob w h pattern = moved ++ rest
    /\ h' = h ++ map move_one moved
    /\ (forall exe, has_dir (basename exe) = false)
    /\ match o with
       | Ret _ => rest = [] /\ went_through w h (map move_one moved)
       | Exit _ => False
       | Uncaught exn =>
           exists before last,
             moved = before ++ [last]
             /\ went_through w h (map move_one before)
             /\ raises w (h ++ map move_one before) (move_one last) = Some exn
       end.
Proof.
  unfold move_up, bind. intros H.
  destruct (for_each_moves w _ _ _ _ H) as [moved [rest [Hg [Hh Ho]]]].
  exists moved, rest. repeat split; auto using basename_no_slash.
Qed.

Lemma move_up_targets_witness :
  exists moved rest,
    glob packaged [] "paceplugin/LAMMPS*plugin*.exe" = moved ++ rest
    /\ [Move "paceplugin/LAMMPS-ML-PACE-plugin.exe" "../LAMMPS-ML-PACE-plugin.exe"]
       = [] ++ map move_one moved
    /\ (forall exe, has_dir (basename exe) = false)
    /\ rest = [] /\ went_through packaged [] (map move_one moved).
Proof.
  apply (move_up_targets packaged "paceplugin/LAMMPS*plugin*.exe" [] _ (Ret tt)).
  reflexivity.
Defined.

End Artifacts.

(** ** The name of the working directory tells the build apart *)

Module WorkDir.
Import Py Re Script Spec Extra StrFacts Utf8 Revisions.

Lemma forallb_impl (p q : ascii -> bool) (l : list ascii) :
  (forall c, p c = true -> q c = true) -> forallb p l = true -> forallb q l = true.
Proof.
  intros Hpq. induction l as [|c l IH]; simpl; [auto|].
  intros H. apply andb_true_iff in H. destruct H as [Hc Hl].
  now rewrite (Hpq _ Hc), IH.
Qed.

Lemma hex_not_dash c : ascii_hexlower c = true -> negb (Ascii.eqb c "-") = true.
Proof. destruct (Ascii.eqb_spec c "-") as [->|]; [discriminate | reflexivity]. Qed.

Lemma decimal_no_dash w s : Forall (decimal w) (uchars s) -> no_char "-" s.
Proof.
  intros H. apply no_char_of_letters; [reflexivity|].
  intros ch Hin E. rewrite Forall_forall in H. specialize (H ch Hin). subst ch.
  destruct H as [[b [Eb Hb]]|[Hm _]]; [|discriminate].
  injection Eb as <-. discriminate.
Qed.

Lemma no_char_app c (a b : string) :
  no_char c (a ++ b) <-> no_char c a /\ no_char c b.
Proof. unfold no_char. rewrite chars_app, forallb_app. apply andb_true_iff. Qed.

(** No accepted revision holds a dash. *)
Lemma valid_revision_no_dash w (r : string) :
  valid_revision w r = true -> no_char "-" r.
Proof.
  intros H. apply valid_revision_spec in H.
  destruct H as [s0 [Hs H]].
  assert (H0 : no_char "-" s0).
  { destruct H as [Hk|[Hd|[_ Hh]]].
    - unfold keywords in Hk. simpl in Hk.
      destruct Hk as [<-|[<-|[<-|[<-|[]]]]]; reflexivity.
    - destruct Hd as [kind [day [month [year [-> [Hk [_ [Hd [Hm [_ Hy]]]]]]]]]].
      repeat (apply no_char_app; split).
      + simpl in Hk. destruct Hk as [<-|[<-|[]]]; reflexivity.
      + reflexivity.
      + exact (decimal_no_dash w _ Hd).
      + unfold months in Hm. simpl in Hm.
        repeat (destruct Hm as [<-|Hm]; [reflexivity|]). destruct Hm.
      + exact (decimal_no_dash w _ Hy).
    - exact (forallb_impl _ _ _ hex_not_dash Hh). }
  destruct Hs as [->| ->]; [exact H0|].
  apply no_char_app. split; [exact H0 | reflexivity].
Qed.

Lemma split_at_dash (r1 : string) : forall r2 s1 s2,
  no_char "-" r1 -> no_char "-" r2 -> dashed s1 -> dashed s2 ->
  r1 ++ s1 = r2 ++ s2 -> r1 = r2 /\ s1 = s2.
Proof.
  assert (Hhead : forall c r s t,
             no_char "-" (String c r) -> dashed s -> s = String c t -> False).
  { intros c r s t Hn [->|[rest ->]] E; [discriminate|].
    injection E as <- _. discriminate. }
  induction r1 as [|c r1 IH]; intros r2 s1 s2 H1 H2 D1 D2 E.
  - destruct r2 as [|d r2]; [auto|].
    exfalso. simpl in E. exact (Hhead _ _ _ _ H2 D1 E).
  - destruct r2 as [|d r2].
    + exfalso. simpl in E. symmetry in E. exact (Hhead _ _ _ _ H1 D2 E).
    + simpl in E. injection E as <- E.
      unfold no_char in H1, H2. simpl in H1, H2.
      apply andb_true_iff in H1, H2. destruct H1 as [_ H1], H2 as [_ H2].
      destruct (IH r2 s1 s2 H1 H2 D1 D2 E) as [-> ->]. auto.
Qed.

Lemma builddir_name_flavour (c : config) :
  builddir_name c
  = "tmp-" ++ bitflag c ++ "-" ++ parflag c ++ "-" ++ thrflag c ++ "-" ++ revflag c
    ++ flavour c.
Proof.
  unfold builddir_name, flavour.
  destruct (adminflag c), (pythonflag c), (guiflag c), (msixflag c); reflexivity.
Qed.

Lemma flavour_dashed (c : config) : dashed (flavour c).
Proof.
  unfold flavour, dashed.
  destruct (adminflag c), (pythonflag c), (guiflag c), (msixflag c); eauto.
Qed.

(** Two configurations that pass the checks get the same working
    directory name exactly when they agree on bitness, parallelism,
    threading, revision and kind of installer. *)
Theorem builddir_name_tells_apart (w : World) (c1 c2 : config) :
  well_formed w c1 -> well_formed w c2 ->
  (builddir_name c1 = builddir_name c2
   <-> bitflag c1 = bitflag c2 /\ parflag c1 = parflag c2 /\ thrflag c1 = thrflag c2
       /\ revflag c1 = revflag c2 /\ flavour c1 = flavour c2).
Proof.
  intros [Hb1 [Hp1 [Ht1 [_ Hr1]]]] [Hb2 [Hp2 [Ht2 [_ Hr2]]]].
  rewrite !builddir_name_flavour. split.
  - intros H.
    apply valid_revision_no_dash in Hr1, Hr2.
    pose proof (flavour_dashed c1) as D1. pose proof (flavour_dashed c2) as D2.
    revert H D1 D2 Hr1 Hr2.
    generalize (flavour c1), (flavour c2), (revflag c1), (revflag c2).
    intros f1 f2 r1 r2 H D1 D2 Hr1 Hr2.
    simpl in Hb1, Hb2, Hp1, Hp2, Ht1, Ht2. revert H.
    destruct Hb1 as [<-|[<-|[]]], Hb2 as [<-|[<-|[]]]; try discriminate;
      destruct Hp1 as [<-|[<-|[<-|[]]]], Hp2 as [<-|[<-|[<-|[]]]]; try discriminate;
        destruct Ht1 as [<-|[<-|[]]], Ht2 as [<-|[<-|[]]]; try discriminate;
          simpl; intros H; injection H as H;
          destruct (split_at_dash r1 r2 f1 f2 Hr1 Hr2 D1 D2 H) as [-> ->];
          auto.
  - intros [-> [-> [-> [-> ->]]]]. reflexivity.
Qed.

Lemma builddir_name_tells_apart_witness :
  builddir_name (Sample.on_revision "stable") = builddir_name (defaults Sample.world)
  <-> bitflag (Sample.on_revision "stable") = bitflag (defaults Sample.world)
      /\ parflag (Sample.on_revision "stable") = parflag (defaults Sample.world)
      /\ thrflag (Sample.on_revision "stable") = thrflag (defaults Sample.world)
      /\ revflag (Sample.on_revision "stable") = revflag (defaults Sample.world)
      /\ flavour (Sample.on_revision "stable") = flavour (defaults Sample.world).
Proof.
  apply (builddir_name_tells_apart Sample.world
           (Sample.on_revision "stable") (defaults Sample.world));
    unfold well_formed; simpl; repeat split; auto.
Defined.

End WorkDir.

(** ** What the version pattern captures *)

Module VersionLine.
Import Py Re Script Spec Extra StrFacts Utf8 ReFacts Revisions Version.
Local Open Scope list_scope.

(** Whatever the matcher finds, the pattern denotes, groups included. *)
Lemma exec_captures r : forall pos s caps (k : cont) res,
  exec r pos s caps k = Some res ->
  exists u v cs, s = u ++ v /\ captures r pos u v cs
                 /\ k (pos + length u) v (caps ++ cs) = Some res.
Proof.
  induction r as [| |w|r1 IH1 r2 IH2|r1 IH1 r2 IH2|p lo hi|r IH];
    intros pos s caps k res H; cbn [exec] in H.
  - destruct (Nat.eqb_spec pos 0) as [->|]; [|discriminate].
    exists [], s, []. simpl. rewrite app_nil_r. auto 10.
  - destruct s as [|c [|d s]]; try discriminate.
    + exists [], [], []. simpl. rewrite Nat.add_0_r, app_nil_r. auto 10.
    + destruct (String.eqb_spec c nl) as [->|]; [|discriminate].
      exists [], [nl], []. simpl. rewrite Nat.add_0_r, app_nil_r. auto 10.
  - destruct (strip_prefix (uchars w) s) as [s'|] eqn:E; [|discriminate].
    apply strip_prefix_spec in E. exists (uchars w), s', []. simpl.
    rewrite app_nil_r. auto 10.
  - destruct (IH1 _ _ _ _ _ H) as [u1 [v1 [cs1 [-> [H1 H2]]]]].
    destruct (IH2 _ _ _ _ _ H2) as [u2 [v [cs2 [-> [H3 H4]]]]].
    exists (u1 ++ u2), v, (cs1 ++ cs2).
    split; [now rewrite app_assoc|].
    split; [simpl; exists u1, u2, cs1, cs2; auto 10|].
    rewrite length_app, Nat.add_assoc, app_assoc. exact H4.
  - destruct (exec r1 pos s caps k) as [res1|] eqn:E1.
    + injection H as ->.
      destruct (IH1 _ _ _ _ _ E1) as [u [v [cs [-> [H1 H2]]]]].
      exists u, v, cs. simpl. auto 10.
    + destruct (IH2 _ _ _ _ _ H) as [u [v [cs [-> [H1 H2]]]]].
      exists u, v, cs. simpl. auto 10.
  - destruct (many_sound _ _ _ _ _ _ _ _ H) as [u [v [-> [Hlo [Hhi [Hp Hk]]]]]].
    exists u, v, []. simpl. rewrite app_nil_r. auto 10.
  - destruct (IH _ _ _ _ _ H) as [u [v [cs [-> [H1 H2]]]]].
    exists u, v, (cs ++ [text u]).
    replace (pos + length u - pos) with (length u) in H2 by lia.
    rewrite firstn_app, Nat.sub_diag, firstn_all in H2. simpl firstn in H2.
    rewrite app_nil_r, <- app_assoc in H2.
    split; [reflexivity|]. split; [simpl; exists cs; auto|]. exact H2.
Qed.

Lemma word_of_list w (l : list uchar) :
  1 <= length l -> forallb (wordchar w) l = true -> word w (text l).
Proof.
  intros Hlen Hw.
  assert (E : uchars (text l) = l).
  { apply uchars_text_id. revert Hw. apply forallb_class_decodable, ascii_word_ascii. }
  apply word_intro.
  - intros H. rewrite H in E. simpl in E. subst l. simpl in Hlen. lia.
  - now rewrite E.
Qed.

(** A run of [.] within a text has no line feed. *)
Lemma dots_no_line_feed (l : list uchar) :
  Forall unit_char l -> forallb dot l = true -> no_char LF (text l).
Proof.
  intros Hu Hd. apply no_char_text; [reflexivity | exact Hu |].
  intros ch Hin E. rewrite forallb_forall in Hd. specialize (Hd ch Hin).
  subst ch. discriminate.
Qed.

(** Whatever version the first line of version.h yields, it is made of
    three words that stand in the line between double quotes, one space
    apart, with no line feed before them and none after them but
    possibly the last character.  The words are runs of word characters
    as the interpreter has them.  So a line without such a quoted
    triple, and in particular one with fewer than two double quotes,
    yields nothing: the script raises AttributeError. *)
Theorem parse_version_line_sound (w : World) (line : string) :
  (forall version,
      parse_version_line w line = Some version ->
      exists pre t1 t2 t3 post,
        line = (pre ++ dq ++ t1 ++ " " ++ t2 ++ " " ++ t3 ++ dq ++ post)%string
        /\ word w t1 /\ word w t2 /\ word w t3
        /\ no_char LF pre /\ single_line post
        /\ version = (t1 ++ t2 ++ t3)%string)
  /\ (quotes (uchars line) < 2 -> parse_version_line w line = None).
Proof.
  assert (Hsound : forall version,
      parse_version_line w line = Some version ->
      exists pre t1 t2 t3 post,
        line = (pre ++ dq ++ t1 ++ " " ++ t2 ++ " " ++ t3 ++ dq ++ post)%string
        /\ word w t1 /\ word w t2 /\ word w t3
        /\ no_char LF pre /\ single_line post
        /\ version = (t1 ++ t2 ++ t3)%string).
  { intros version H. unfold parse_version_line, re_match in H.
    destruct (exec (verexp w) 0 (uchars line) [] (fun _ _ caps => Some caps))
      as [verseq|] eqn:E; [|discriminate].
    injection H as <-.
    destruct (exec_captures _ _ _ _ _ _ E) as [u [v [cs [Hline [Hc Hk]]]]].
    injection Hk as <-.
    unfold verexp, plus, star in Hc. cbn [captures seqs] in Hc.
    break. subst.
    pose proof (uchars_units line) as Hunits. rewrite Hline in Hunits.
    cbn [app] in Hunits. rewrite !Forall_app in Hunits.
    match goal with
    | Ha : forallb dot ?a = true, Hb : forallb dot ?b = true,
      H1 : forallb (wordchar w) ?w1 = true, H2 : forallb (wordchar w) ?w2 = true,
      H3 : forallb (wordchar w) ?w3 = true |- _ =>
        exists (text a), (text w1), (text w2), (text w3), (text (b ++ v));
        assert (Hua : Forall unit_char a) by tauto;
        assert (Hub : Forall unit_char b)
          by (repeat match goal with
                     | H : Forall _ (_ :: _) |- _ => inversion_clear H
                     | H : _ /\ _ |- _ => destruct H
                     end; rewrite ?Forall_app in *; tauto)
    end.
    split; [|split; [|split; [|split; [|split; [|split]]]]];
      try (apply word_of_list; assumption).
    - rewrite <- (text_uchars line), Hline. cbn [app].
      change (uchars dq) with [dq]. change (uchars " ") with [" "%string].
      rewrite !app_nil_r.
      repeat (rewrite ?text_app, ?text_cons).
      change (text []) with ""%string. rewrite ?append_nil_r.
      repeat rewrite append_assoc. reflexivity.
    - now apply dots_no_line_feed.
    - match goal with Hb : forallb dot ?b = true |- _ =>
        exists (text b); split; [|now apply dots_no_line_feed] end.
      rewrite text_app.
      match goal with Hv : _ \/ _ |- _ => destruct Hv as [->| ->] end.
      + left. apply append_nil_r.
      + right. reflexivity.
    - reflexivity. }
  split; [exact Hsound|].
  intros Hq. destruct (parse_version_line w line) as [version|] eqn:E; [|reflexivity].
  exfalso.
  destruct (Hsound version eq_refl) as [pre [t1 [t2 [t3 [post [-> [H1 [H2 [H3 _]]]]]]]]].
  rewrite (version_line_chars w) in Hq by assumption.
  repeat (rewrite ?quotes_app, ?quotes_cons in Hq; cbn [app] in Hq).
  rewrite String.eqb_refl in Hq. lia.
Qed.

Lemma parse_version_line_sound_witness :
  parse_version_line Sample.world "#define LAMMPS_VERSION 2Aug2023" = None.
Proof.
  apply (proj2 (parse_version_line_sound Sample.world "#define LAMMPS_VERSION 2Aug2023")).
  vm_compute. lia.
Defined.

End VersionLine.

(** ** The working directory and the kinds of installer *)
Module Lifecycle.
Import Py Re Script Spec Extra StrFacts ParseFacts FailFast.
Local Open Scope list_scope.

(** A build that completes has recreated the working directory before
    anything else and has removed it as its last action but for the
    closing message. *)
Theorem workdir_created_first_removed_last
        (w : World) (c : config) (h h' : list event) :
  build w c h = (h', Ret tt) ->
  exists between,
    h' = h ++ [Rmtree (builddir w c); Mkdir (builddir w c)]
           ++ between
           ++ [Chdir ".."; Stdout (print_text ["Cleaning up..."]);
               Rmtree (builddir w c); Stdout (print_text ["Done."])].
Proof.
  unfold build. intros H.
  apply bind_ret_inv in H. destruct H as [[] [h0 [Hcwd H]]].
  assert (h0 = h) as ->.
  { unfold locate_builddir in Hcwd.
    destruct (fullpath_error w "."); [discriminate | now injection Hcwd]. }
  apply bind_ret_inv in H. destruct H as [[] [h1 [Hfirst H]]].
  assert (Hh1 : h1 = h ++ [Rmtree (builddir w c); Mkdir (builddir w c)]).
  { unfold make_builddir, bind, emit in Hfirst.
    destruct (raises w (h ++ [Rmtree (builddir w c)]) (Mkdir (builddir w c))).
    - unfold error, bind, print, emit, sys_exit in Hfirst. simpl in Hfirst.
      discriminate.
    - injection Hfirst as <-. now rewrite <- app_assoc. }
  subst h1.
  assert (Hmid : exists mid hN,
             hN = (h ++ [Rmtree (builddir w c); Mkdir (builddir w c)]) ++ mid
             /\ cleanup w c hN = (h', Ret tt)).
  { revert H. generalize (h ++ [Rmtree (builddir w c); Mkdir (builddir w c)]).
    intros h0 H.
    repeat match type of H with
           | bind _ _ _ = _ =>
               apply bind_ret_inv in H;
               let a := fresh "a" in let hn := fresh "hn" in
               let Hs := fresh "Hs" in
               destruct H as [a [hn [Hs H]]];
               apply ret_extends with (w := w) in Hs; [|ff_stage];
               let e := fresh "e" in destruct Hs as [e ->]
           end.
    eexists. eexists. split; [|exact H].
    repeat rewrite <- app_assoc. reflexivity. }
  destruct Hmid as [mid [hN [-> Hlast]]].
  unfold cleanup, bind, fs, print, emit in Hlast.
  match type of Hlast with context [raises w ?hh (Chdir "..")] =>
    destruct (raises w hh (Chdir "..")); [discriminate|] end.
  injection Hlast as <-.
  exists mid. repeat rewrite <- app_assoc. reflexivity.
Qed.

Lemma workdir_created_first_removed_last_witness :
  exists between,
    fst (build Sample.world (defaults Sample.world) [])
    = [] ++ [Rmtree (builddir Sample.world (defaults Sample.world));
             Mkdir (builddir Sample.world (defaults Sample.world))]
         ++ between
         ++ [Chdir ".."; Stdout (print_text ["Cleaning up..."]);
             Rmtree (builddir Sample.world (defaults Sample.world));
             Stdout (print_text ["Done."])].
Proof.
  apply (workdir_created_first_removed_last Sample.world (defaults Sample.world) []
           (fst (build Sample.world (defaults Sample.world) []))).
  vm_compute. reflexivity.
Defined.

Lemma extends {A} w (m : M A) h h' o :
  fail_fast w m -> m h = (h', o) -> exists ext, h' = h ++ ext.
Proof.
  intros Hff H. destruct (Hff _ _ _ H) as [ext [-> _]]. eauto.
Qed.

(** The plugin packages are built for exactly one kind of installer,
    the one whose working directory ends in [-noadmin]: for every other
    kind the stage does nothing at all, and for this one it starts with
    the heading of the pace plugin. *)
Theorem plugin_packages_only_plain (w : World) (c : config) (h : list event) :
  (flavour c <> "-noadmin"%string -> build_plugin_packages w c h = (h, Ret tt))
  /\ (flavour c = "-noadmin"%string ->
      exists rest o,
        build_plugin_packages w c h
        = (h ++ Stdout (print_text ["Configuring pace plugin build with CMake"]) :: rest,
           o)).
Proof.
  unfold build_plugin_packages, flavour. split.
  - intros Hf.
    destruct (adminflag c), (pythonflag c), (guiflag c), (msixflag c);
      try reflexivity. exfalso. now apply Hf.
  - intros Hf.
    destruct (adminflag c), (pythonflag c), (guiflag c), (msixflag c);
      try discriminate.
    cbn [negb andb when]. cbv zeta.
    unfold bind at 1. unfold print at 1. unfold emit.
    match goal with |- exists rest o, ?k ?hh = _ =>
      destruct (k hh) as [h' o] eqn:E;
      assert (Hext : exists ext, h' = hh ++ ext)
    end.
    { revert E. apply extends with (w := w).
      repeat first [apply ff_move_up | ff_step]. }
    destruct Hext as [ext ->]. exists ext, o.
    now rewrite <- app_assoc.
Qed.

Lemma plugin_packages_only_plain_witness :
  build_plugin_packages Sample.world (defaults Sample.world) [] = ([], Ret tt).
Proof.
  apply (proj1 (plugin_packages_only_plain Sample.world (defaults Sample.world) [])).
  discriminate.
Defined.

End Lifecycle.
